(** * Retrieve-then-generate notebooks of the Milvus bootcamp

    A shallow embedding of the helper code of four notebooks:
    - [tutorials/integration/evaluation_with_ragas.ipynb] (class [RAG]),
    - [tutorials/integration/rag_with_milvus_and_unstructured.ipynb]
      ([emb_text], [load_processed_files], [retrieve_documents],
      [generate_rag_response]),
    - [RAG/zilliz_pipeline_rag_advanced.ipynb] (class [MilvusDocChatbot]),
    - [RAG/advanced_rag/hybrid_and_rerank_with_langchain.ipynb]
      (the hybrid retriever feeding [RerankerRunnable]).

    The notebooks are glue around hosted services.  The services are kept
    abstract: what they answer is a field of the class [External]; what the
    notebook code does with the answers is translated function by function. *)

From Stdlib Require Import ZArith Lia Ascii String.
From stdpp Require Import base option list gmap strings sorting.

Local Open Scope Z_scope.

(** ** Python prelude *)

Module Py.

(** Exceptions, by the class a handler would match on. *)
Inductive PyExc : Type :=
  | IOError (detail : string)
  | IndexError (detail : string)
  | KeyError (key : string)
  | ValueError (detail : string)
  | MilvusException (detail : string)
  | OpenAIError (detail : string)
  | OtherError (cls detail : string).

Inductive Result (A : Type) : Type :=
  | Ok (a : A)
  | Raise (e : PyExc).
Arguments Ok {A} a.
Arguments Raise {A} e.

Definition rbind {A B} (r : Result A) (k : A → Result B) : Result B :=
  match r with
  | Ok a => k a
  | Raise e => Raise e
  end.

Definition rmap {A B} (f : A → B) (r : Result A) : Result B :=
  rbind r (λ a, Ok (f a)).

(** The characters the templates need and a string literal cannot hold. *)
Definition nl : string := String (Ascii.ascii_of_nat 10) EmptyString.
Definition dquote : string := String (Ascii.ascii_of_nat 34) EmptyString.

(** [xs[0]] *)
Definition index0 {A} (xs : list A) : Result A :=
  match xs with
  | x :: _ => Ok x
  | [] => Raise (IndexError "list index out of range")
  end.

(** [xs[:k]]: a negative [k] counts from the end. *)
Definition slice_to {A} (xs : list A) (k : Z) : list A :=
  if (0 <=? k) then take (Z.to_nat k) xs
  else take (length xs - Z.to_nat (- k))%nat xs.

(** [sep.join(xs)] *)
Fixpoint join (sep : string) (xs : list string) : string :=
  match xs with
  | [] => EmptyString
  | [x] => x
  | x :: rest => x +:+ sep +:+ join sep rest
  end.

(** [s.startswith(p)] and [s.endswith(p)] *)
Fixpoint startswith (s p : string) : bool :=
  match p, s with
  | EmptyString, _ => true
  | String c p', String d s' => if Ascii.eqb c d then startswith s' p' else false
  | String _ _, EmptyString => false
  end.

Fixpoint endswith (s p : string) : bool :=
  match s with
  | EmptyString => String.eqb p EmptyString
  | String _ s' => String.eqb s p || endswith s' p
  end.

(** [os.path.join(a, p)] on POSIX, for two components. *)
Definition path_join (a p : string) : string :=
  if startswith p "/" then p
  else if String.eqb a EmptyString || endswith a "/" then a +:+ p
  else a +:+ "/" +:+ p.

(** [enumerate(xs)] *)
Fixpoint enumerate_from {A} (i : Z) (xs : list A) : list (Z * A) :=
  match xs with
  | [] => []
  | x :: rest => (i, x) :: enumerate_from (i + 1) rest
  end.
Definition enumerate {A} (xs : list A) : list (Z * A) := enumerate_from 0 xs.

(** [tpl.format(...)] with keyword arguments [kw], for templates whose replacement fields are plain
    names; doubled braces are literal braces.  [field] holds the name being
    read when the scan is inside a replacement field. *)
Fixpoint format_go (tpl : string) (field : option string)
    (kw : list (string * string)) : Result string :=
  match tpl with
  | EmptyString =>
      match field with
      | None => Ok EmptyString
      | Some _ => Raise (ValueError "expected '}' before end of string")
      end
  | String c rest =>
      match field with
      | None =>
          if Ascii.eqb c "{"%char then
            match rest with
            | String "{"%char rest' => rmap (String "{"%char) (format_go rest' None kw)
            | _ => format_go rest (Some EmptyString) kw
            end
          else if Ascii.eqb c "}"%char then
            match rest with
            | String "}"%char rest' => rmap (String "}"%char) (format_go rest' None kw)
            | _ => Raise (ValueError "single '}' encountered in format string")
            end
          else rmap (String c) (format_go rest None kw)
      | Some name =>
          if Ascii.eqb c "}"%char then
            match list_find (λ kv, String.eqb kv.1 name = true) kw with
            | Some (_, (_, v)) => rmap (String.append v) (format_go rest None kw)
            | None => Raise (KeyError name)
            end
          else if Ascii.eqb c "{"%char then
            Raise (ValueError "unexpected '{' in field name")
          else format_go rest (Some (name +:+ String c EmptyString)) kw
      end
  end.
Definition format (tpl : string) (kw : list (string * string)) : Result string :=
  format_go tpl None kw.

(** The loop of [s.split(sep)] for a separator that is not empty: [piece]
    is the piece being read, [skip] counts the characters of a separator
    just met that are still to be passed over. *)
Fixpoint split_go (sep : string) (skip : nat) (piece : string) (s : string)
    : list string :=
  match s with
  | EmptyString => [piece]
  | String c rest =>
      match skip with
      | Datatypes.S k => split_go sep k piece rest
      | O =>
          if startswith s sep
          then piece :: split_go sep (String.length sep - 1) EmptyString rest
          else split_go sep 0 (piece +:+ String c EmptyString) rest
      end
  end.

(** [s.split(sep)] *)
Definition split (s sep : string) : Result (list string) :=
  if String.eqb sep EmptyString then Raise (ValueError "empty separator")
  else Ok (split_go sep 0 EmptyString s).

End Py.
Export Py.

(** ** The hosted services

    [F] is the type of Python floats.  The notebooks never compute on an
    embedding or on a distance; they pass them along. *)

(** A row as the notebooks build it: [{"id": i, "vector": v, "text": line}]. *)
Record Row (F : Type) : Type := mkRow {
  row_id : Z;
  row_vector : list F;
  row_text : string
}.
Arguments mkRow {F}.
Arguments row_id {F}.
Arguments row_vector {F}.
Arguments row_text {F}.

(** One search hit: [{"id": .., "distance": .., "entity": {..}}]. *)
Record Hit (F : Type) : Type := mkHit {
  hit_id : Z;
  hit_distance : F;
  hit_entity : list (string * string)
}.
Arguments mkHit {F}.
Arguments hit_id {F}.
Arguments hit_distance {F}.
Arguments hit_entity {F}.

Record Collection (F : Type) : Type := mkCollection {
  dimension : nat;
  metric_type : string;
  consistency_level : string;
  rows : list (Row F)
}.
Arguments mkCollection {F}.
Arguments dimension {F}.
Arguments metric_type {F}.
Arguments consistency_level {F}.
Arguments rows {F}.

Record Message : Type := mkMessage { role : string; content : string }.

(** The keyword arguments of [chat.completions.create]; [temperature] is
    [None] when the call does not pass it. *)
Record ChatRequest : Type := mkChatRequest {
  model : string;
  temperature : option Z;
  messages : list Message
}.

(** The calls the notebooks make on the OpenAI and Milvus clients. *)
Inductive Call (F : Type) : Type :=
  | EmbeddingsCreate (input model : string)
  | ChatCompletionsCreate (request : ChatRequest)
  | HasCollection (name : string)
  | DropCollection (name : string)
  | CreateCollection (name : string) (dim : nat) (metric consistency : string)
  | Insert (name : string) (data : list (Row F))
  | Search (name : string) (data : list (list F)) (limit : Z)
      (metric : option string) (output_fields : list string).
Arguments EmbeddingsCreate {F}.
Arguments ChatCompletionsCreate {F}.
Arguments HasCollection {F}.
Arguments DropCollection {F}.
Arguments CreateCollection {F}.
Arguments Insert {F}.
Arguments Search {F}.

(** What the services answer, over one run of the notebook: an answer is a
    function of the request.  [fault] is the service's verdict on a call,
    given the collections it holds: [Some e] when the client raises [e]
    (no API key, network down, a request the server rejects). *)
Class External (F : Type) : Type := {
  embeddings_data : string → string → list (list F);
  chat_choices : ChatRequest → list string;
  search_hits : Collection F → list (list F) → Z → option string →
                list string → list (list (Hit F));
  fault : gmap string (Collection F) → Call F → option PyExc
}.

(** The state the calls act on: the collections of the Milvus server, and
    the calls made so far with the verdict each one met, oldest first. *)
Record World (F : Type) : Type := mkWorld {
  store : gmap string (Collection F);
  log : list (Call F * option PyExc)
}.
Arguments mkWorld {F}.
Arguments store {F}.
Arguments log {F}.

(** ** Computations that call the services *)

Definition M (F A : Type) : Type := World F → Result A * World F.

Definition ret {F A} (a : A) : M F A := λ w, (Ok a, w).

Definition raise {F A} (e : PyExc) : M F A := λ w, (Raise e, w).

Definition bind {F A B} (m : M F A) (k : A → M F B) : M F B :=
  λ w, match m w with
       | (Ok a, w') => k a w'
       | (Raise e, w') => (Raise e, w')
       end.

Definition lift {F A} (r : Result A) : M F A := λ w, (r, w).

Notation "'let*' x := m 'in' k" := (bind m (λ x, k))
  (at level 10, x name, m at level 100, k at level 200).
Notation "m1 >> m2" := (bind m1 (λ _, m2))
  (at level 100, right associativity).

(** [[f(x) for x in xs]] where [f] may raise. *)
Fixpoint comprehension {A B} (f : A → Result B) (xs : list A) : Result (list B) :=
  match xs with
  | [] => Ok []
  | x :: rest => rbind (f x) (λ y, rmap (cons y) (comprehension f rest))
  end.

(** [d[k]] on a dict with string keys. *)
Fixpoint dict_get (d : list (string * string)) (k : string) : Result string :=
  match d with
  | [] => Raise (KeyError k)
  | (k', v) :: rest => if String.eqb k' k then Ok v else dict_get rest k
  end.

Section Clients.
Context {F : Type} `{!External F}.

(** Every call is logged, then the service accepts or rejects it. *)
Definition external (c : Call F) : M F unit :=
  λ w, let verdict := fault (store w) c in
       let w' := mkWorld (store w) (log w ++ [(c, verdict)]) in
       match verdict with
       | Some e => (Raise e, w')
       | None => (Ok tt, w')
       end.

Definition update_store (f : gmap string (Collection F) → gmap string (Collection F))
    : M F unit :=
  λ w, (Ok tt, mkWorld (f (store w)) (log w)).

Definition read_store : M F (gmap string (Collection F)) :=
  λ w, (Ok (store w), w).

(** [openai_client.embeddings.create(input=.., model=..).data] *)
Definition embeddings_create (input model : string) : M F (list (list F)) :=
  external (EmbeddingsCreate input model) >>
  ret (embeddings_data input model).

(** [openai_client.chat.completions.create(..).choices], each choice by its
    [message.content]. *)
Definition chat_completions_create (request : ChatRequest) : M F (list string) :=
  external (ChatCompletionsCreate request) >>
  ret (chat_choices request).

Definition has_collection (name : string) : M F bool :=
  external (HasCollection name) >>
  let* s := read_store in
  ret (bool_decide (is_Some (s !! name))).

Definition drop_collection (name : string) : M F unit :=
  external (DropCollection name) >>
  update_store (delete name).

(** An accepted [create_collection] of a name the server already holds
    leaves that collection as it is. *)
Definition create_collection (name : string) (dim : nat)
    (metric consistency : string) : M F unit :=
  external (CreateCollection name dim metric consistency) >>
  update_store (λ s, match s !! name with
                     | Some _ => s
                     | None => <[name := mkCollection dim metric consistency []]> s
                     end).

(** The rows whose primary key is, or is not, among [keys]. *)
Definition has_key (keys : list Z) (r : Row F) : bool :=
  bool_decide (row_id r ∈ keys).

Definition other_key (keys : list Z) (r : Row F) : bool :=
  negb (has_key keys r).

(** The notebooks open a local file, [MilvusClient(uri="./milvus_demo.db")],
    which is Milvus Lite.  There a collection holds one row per primary
    key: an inserted row takes the place of the stored row with its key, if
    there is one.  The rows of one call are taken one after the other;
    [RAG.load], the one caller, sends distinct keys. *)
Definition put_row (stored : list (Row F)) (r : Row F) : list (Row F) :=
  List.filter (other_key [row_id r]) stored ++ [r].

Definition put_rows (stored data : list (Row F)) : list (Row F) :=
  fold_left put_row data stored.

(** An accepted [insert] stores the rows, each under its primary key. *)
Definition insert_rows (name : string) (data : list (Row F)) : M F unit :=
  external (Insert name data) >>
  let* s := read_store in
  match s !! name with
  | None => raise (MilvusException "collection not found")
  | Some c =>
      update_store (<[name := mkCollection (dimension c) (metric_type c)
                                (consistency_level c) (put_rows (rows c) data)]>)
  end.

Definition search (name : string) (data : list (list F)) (limit : Z)
    (metric : option string) (output_fields : list string)
    : M F (list (list (Hit F))) :=
  external (Search name data limit metric output_fields) >>
  let* s := read_store in
  match s !! name with
  | None => raise (MilvusException "collection not found")
  | Some c => ret (search_hits c data limit metric output_fields)
  end.

End Clients.

(** A computation lets failures through when a call the service rejects is
    the last call it makes and the exception of that call is its outcome:
    nothing is caught, retried or translated. *)
Definition propagates {F A : Type} (m : M F A) : Prop :=
  ∀ w r w', m w = (r, w') →
    ∃ entries,
      log w' = (log w ++ entries)%list ∧
      ∀ i c e, entries !! i = Some (c, Some e) →
               r = Raise e ∧ Datatypes.S i = length entries.

(** A computation is read-only when it leaves the collections as they
    are, whether it returns or raises. *)
Definition read_only {F A : Type} (m : M F A) : Prop :=
  ∀ w r w', m w = (r, w') → store w' = store w.

(** ** [evaluation_with_ragas.ipynb]: class [RAG] *)

Module EvaluationWithRagas.

(** The attributes of a [RAG] object.  The two clients are the services of
    the enclosing section; an attribute not assigned yet is the empty
    string. *)
Record RAG : Type := mkRAG {
  embedding_model : string;
  llm_model : string;
  SYSTEM_PROMPT : string;
  USER_PROMPT : string;
  collection_name : string
}.

(** What [answer] returns: the answer alone, or the pair of the answer and
    the retrieved texts. *)
Inductive Answer : Type :=
  | AnswerText (text : string)
  | AnswerWithTexts (text : string) (retrieved_texts : list string).

Definition blank : RAG :=
  mkRAG EmptyString EmptyString EmptyString EmptyString EmptyString.

Section Methods.
Context {F : Type} `{!External F}.

Definition _emb_text (self : RAG) (text : string) : M F (list F) :=
  let* data := embeddings_create text (embedding_model self) in
  let* first := lift (index0 data) in
  ret first.

Definition _prepare_openai (self : RAG) (embedding_model llm_model : string) : RAG :=
  mkRAG embedding_model llm_model
    (nl +:+ "Human: You are an AI assistant. You are able to find answers to the questions from the contextual passage snippets provided." +:+ nl)
    (nl +:+ "Use the following pieces of information enclosed in <context> tags to provide an answer to the question enclosed in <question> tags." +:+ nl
        +:+ "<context>" +:+ nl
        +:+ "{context}" +:+ nl
        +:+ "</context>" +:+ nl
        +:+ "<question>" +:+ nl
        +:+ "{question}" +:+ nl
        +:+ "</question>" +:+ nl)
    (collection_name self).

Definition _prepare_milvus (self : RAG) (collection_name : string) : M F RAG :=
  let self := mkRAG (embedding_model self) (llm_model self)
                (SYSTEM_PROMPT self) (USER_PROMPT self) collection_name in
  let* exists_already := has_collection collection_name in
  (if exists_already : bool then drop_collection collection_name else ret tt) >>
  let* probe := _emb_text self "foo" in
  let embedding_dim := length probe in
  create_collection collection_name embedding_dim "IP" "Strong" >>
  ret self.

(** [RAG(openai_client, milvus_client)], with the defaults of the two
    [_prepare] methods. *)
Definition __init__ : M F RAG :=
  let self := _prepare_openai blank "text-embedding-3-small" "gpt-3.5-turbo" in
  _prepare_milvus self "rag_collection".

(** The body of the [for] loop of [load], over [enumerate(texts)]. *)
Fixpoint load_loop (self : RAG) (pairs : list (Z * string)) (data : list (Row F))
    : M F (list (Row F)) :=
  match pairs with
  | [] => ret data
  | (i, line) :: rest =>
      let* v := _emb_text self line in
      load_loop self rest (data ++ [mkRow i v line])
  end.

Definition load (self : RAG) (texts : list string) : M F unit :=
  let* data := load_loop self (enumerate texts) [] in
  insert_rows (collection_name self) data.

Definition retrieve (self : RAG) (question : string) (top_k : Z) : M F (list string) :=
  let* v := _emb_text self question in
  let* search_res := search (collection_name self) [v] top_k (Some "IP") ["text"] in
  let* hits := lift (index0 search_res) in
  let* retrieved_texts :=
    lift (comprehension (λ res, dict_get (hit_entity res) "text") hits) in
  ret (slice_to retrieved_texts top_k).

Definition answer (self : RAG) (question : string) (retrieval_top_k : Z)
    (return_retrieved_text : bool) : M F Answer :=
  let* retrieved_texts := retrieve self question retrieval_top_k in
  let* user_prompt :=
    lift (format (USER_PROMPT self)
            [("context", join nl retrieved_texts); ("question", question)]) in
  let* response :=
    chat_completions_create
      (mkChatRequest (llm_model self) None
         [mkMessage "system" (SYSTEM_PROMPT self);
          mkMessage "user" user_prompt]) in
  let* choice := lift (index0 response) in
  if negb return_retrieved_text then ret (AnswerText choice)
  else ret (AnswerWithTexts choice retrieved_texts).

End Methods.

(** The attributes [__init__] assigns. *)
Definition default_attributes : RAG :=
  let self := _prepare_openai blank "text-embedding-3-small" "gpt-3.5-turbo" in
  mkRAG (embedding_model self) (llm_model self) (SYSTEM_PROMPT self)
    (USER_PROMPT self) "rag_collection".

(** What [USER_PROMPT] holds before, between and after its two replacement
    fields. *)
Definition USER_PROMPT_head : string :=
  nl +:+ "Use the following pieces of information enclosed in <context> tags to provide an answer to the question enclosed in <question> tags." +:+ nl
     +:+ "<context>" +:+ nl.
Definition USER_PROMPT_middle : string :=
  nl +:+ "</context>" +:+ nl +:+ "<question>" +:+ nl.
Definition USER_PROMPT_tail : string :=
  nl +:+ "</question>" +:+ nl.

Definition answer_text (r : Answer) : string :=
  match r with
  | AnswerText a => a
  | AnswerWithTexts a _ => a
  end.

Section Cells.
Context {F : Type} `{!External F}.

(** The cell that loads the development guide, from the text read from the
    file on: [text_lines = file_text.split("# ")], then
    [my_rag.load(text_lines)]. *)
Definition load_file_text (my_rag : RAG) (file_text : string) : M F unit :=
  let* text_lines := lift (split file_text "# ") in
  load my_rag text_lines.

(** [answer, contexts = r].  The call of the loop passes
    [return_retrieved_text=True], for which [r] is a pair; a [str] is given
    the [ValueError] that unpacking a string of another length than two
    raises. *)
Definition unpack_pair (r : Answer) : Result (string * list string) :=
  match r with
  | AnswerWithTexts answer contexts => Ok (answer, contexts)
  | AnswerText _ => Raise (ValueError "too many values to unpack (expected 2)")
  end.

(** The loop over [question_list] that fills [contexts_list] and
    [answer_list]. *)
Fixpoint answer_loop (my_rag : RAG) (question_list : list string)
    (contexts_list : list (list string)) (answer_list : list string)
    : M F (list (list string) * list string) :=
  match question_list with
  | [] => ret (contexts_list, answer_list)
  | question :: rest =>
      let* r := answer my_rag question 3 true in
      let* pair := lift (unpack_pair r) in
      answer_loop my_rag rest (contexts_list ++ [pair.2]) (answer_list ++ [pair.1])
  end.

Definition answer_questions (my_rag : RAG) (question_list : list string)
    : M F (list (list string) * list string) :=
  answer_loop my_rag question_list [] [].

End Cells.

End EvaluationWithRagas.

(** A prompt made of a context block and a question between fixed text. *)
Definition from_template (head middle tail context question : string) : string :=
  head +:+ context +:+ middle +:+ question +:+ tail.

(** ** [rag_with_milvus_and_unstructured.ipynb]

    The notebook is the second document of the file
    [RAG/advanced_rag/hyde_with_langchain.ipynb]. *)

Module RagWithUnstructured.

(** The local files [load_processed_files] reads: [os.listdir] and
    [unstructured.staging.base.elements_from_json], over elements [E]. *)
Class Files (E : Type) : Type := {
  os_listdir : string → Result (list string);
  elements_from_json : string → Result (list E)
}.

Section ProcessedFiles.
Context {E : Type} `{!Files E}.

(** The [for] loop of [load_processed_files]; [printed] collects the lines
    written by [print].  The handler is [except IOError]. *)
Fixpoint load_loop (directory_path : string) (filenames : list string)
    (elements : list E) (printed : list string)
    : Result (list E) * list string :=
  match filenames with
  | [] => (Ok elements, printed)
  | filename :: rest =>
      if endswith filename ".json" then
        let file_path := path_join directory_path filename in
        match elements_from_json file_path with
        | Ok more => load_loop directory_path rest (elements ++ more) printed
        | Raise (IOError _) =>
            load_loop directory_path rest elements
              (printed ++ ["Error: Could not read file " +:+ filename +:+ "."])
        | Raise e => (Raise e, printed)
        end
      else load_loop directory_path rest elements printed
  end.

Definition load_processed_files (directory_path : string)
    : Result (list E) * list string :=
  match os_listdir directory_path with
  | Ok filenames => load_loop directory_path filenames [] []
  | Raise e => (Raise e, [])
  end.

End ProcessedFiles.

Definition collection_name : string := "my_rag_collection".

Section Cells.
Context {F : Type} `{!External F}.

Definition emb_text (text : string) : M F (list F) :=
  let* data := embeddings_create text "text-embedding-3-small" in
  let* first := lift (index0 data) in
  ret first.

Definition retrieve_documents (question : string) (top_k : Z)
    : M F (list (string * F)) :=
  let* v := emb_text question in
  let* search_res := search collection_name [v] top_k None ["text"] in
  let* hits := lift (index0 search_res) in
  lift (comprehension
          (λ res, rmap (λ text, (text, hit_distance res))
                    (dict_get (hit_entity res) "text"))
          hits).

Definition system_prompt : string :=
  "You are an AI assistant. Provide answers based on the given context.".

(** The f-string of [generate_rag_response], indentation included. *)
Definition user_prompt (context question : string) : string :=
  nl +:+ "    Use the following pieces of information to answer the question. If the information is not in the context, say you don't know." +:+ nl
     +:+ "    " +:+ nl
     +:+ "    Context:" +:+ nl
     +:+ "    " +:+ context +:+ nl
     +:+ "    " +:+ nl
     +:+ "    Question: " +:+ question +:+ nl
     +:+ "    ".

(** The context block built from the retrieved pairs. *)
Definition context_of (retrieved_docs : list (string * F)) : string :=
  join nl (map (λ doc : string * F, "Text: " +:+ doc.1 +:+ nl) retrieved_docs).

Definition generate_rag_response (question : string) : M F string :=
  let* retrieved_docs := retrieve_documents question 3 in
  let context := context_of retrieved_docs in
  let* response :=
    chat_completions_create
      (mkChatRequest "gpt-4o-mini" None
         [mkMessage "system" system_prompt;
          mkMessage "user" (user_prompt context question)]) in
  let* choice := lift (index0 response) in
  ret choice.

End Cells.

Section CollectionCell.
Context {F : Type} `{!External F}.

(** The cell that clears the way for the collection:
    [if milvus_client.has_collection(collection_name): drop_collection(..)]. *)
Definition drop_if_exists : M F unit :=
  let* exists_already := has_collection collection_name in
  if exists_already : bool then drop_collection collection_name else ret tt.

End CollectionCell.

(** What [user_prompt] holds before, between and after its two fields. *)
Definition user_prompt_head : string :=
  nl +:+ "    Use the following pieces of information to answer the question. If the information is not in the context, say you don't know." +:+ nl
     +:+ "    " +:+ nl
     +:+ "    Context:" +:+ nl
     +:+ "    ".
Definition user_prompt_middle : string :=
  nl +:+ "    " +:+ nl +:+ "    Question: ".
Definition user_prompt_tail : string := nl +:+ "    ".

End RagWithUnstructured.

(** ** [zilliz_pipeline_rag_advanced.ipynb]: class [MilvusDocChatbot] *)

Module ZillizPipeline.

(** Modelled from the spec: a document chunk of the searched collection,
    with its text and its metadata tags (the [PRESERVE]d fields of the
    ingestion pipeline, here ["version"]). *)
Record Chunk : Type := mkChunk {
  chunk_id : Z;
  chunk_text : string;
  tags : list (string * string)
}.

(** One element of a search result, a dict such as
    [{'chunk_text': .., 'version': ..}], as the notebook shows them. *)
Definition Fragment : Type := list (string * string).

(** Modelled from the spec: the search service behind the pipeline, as the
    chunks of the collection, nearest to the question first.  [repr_str] is
    Python's [repr] on [str]. *)
Class SearchService : Type := {
  nearest : string → list Chunk;
  repr_str : string → string
}.

(** [s] up to the first [c], and what follows that [c]. *)
Fixpoint split_at (c : ascii) (s : string) : option (string * string) :=
  match s with
  | EmptyString => None
  | String d rest =>
      if Ascii.eqb c d then Some (EmptyString, rest)
      else match split_at c rest with
           | Some (before, after) => Some (String d before, after)
           | None => None
           end
  end.

Fixpoint strip_prefix (p s : string) : option string :=
  match p, s with
  | EmptyString, _ => Some s
  | String c p', String d s' => if Ascii.eqb c d then strip_prefix p' s' else None
  | String _ _, EmptyString => None
  end.

(** Modelled from the spec: the scalar filter expressions of the search
    service, which are evaluated on the server.  Only the equality filter
    on a tag field, written [field == "value"], is read. *)
Definition parse_equality (expr : string) : option (string * string) :=
  match split_at " " expr with
  | Some (field, rest) =>
      match strip_prefix ("== " +:+ dquote) rest with
      | Some quoted =>
          match split_at (Ascii.ascii_of_nat 34) quoted with
          | Some (value, EmptyString) => Some (field, value)
          | _ => None
          end
      | None => None
      end
  | None => None
  end.

(** Modelled from the spec: the value of a tag field of a chunk, and the
    equality predicate a filter stands for. *)
Definition tag (c : Chunk) (field : string) : option string :=
  match dict_get (tags c) field with
  | Ok v => Some v
  | Raise _ => None
  end.

Definition satisfies (field value : string) (c : Chunk) : bool :=
  bool_decide (tag c field = Some value).

Section Pipeline.
Context `{!SearchService}.

(** Modelled from the spec: the dict returned for a chunk, its text and the
    other output fields asked for. *)
Definition output (other_output_fields : list string) (c : Chunk) : Result Fragment :=
  rmap (λ extra, ("chunk_text", chunk_text c) :: extra)
    (comprehension (λ f, rmap (λ v, (f, v)) (dict_get (tags c) f))
       other_output_fields).

(** Modelled from the spec: [SearchPipeline.run] of [pipeline_utils.py],
    which is not among the sources.  A similarity search whose optional
    filter is a post-filter predicate over the chunk tags, returning at most
    [top_k] nearest neighbours with the requested output fields. *)
Definition run (question : string) (top_k : Z) (other_output_fields : list string)
    (filter_expr : option string) : Result (list Fragment) :=
  rbind
    (match filter_expr with
     | None => Ok (λ _ : Chunk, true)
     | Some expr =>
         match parse_equality expr with
         | Some (field, value) => Ok (satisfies field value)
         | None => Raise (OtherError "PipelineError" "filter expression not supported")
         end
     end)
    (λ keep,
       comprehension (output other_output_fields)
         (take (Z.to_nat top_k) (List.filter keep (nearest question)))).

(** [MilvusDocChatbot.retrieve]: [self.search_pipeline] is the service of
    the section. *)
Definition retrieve (query milvus_version : string) : Result (list Fragment) :=
  run query 2 ["version"]
    (Some ("version == " +:+ dquote +:+ milvus_version +:+ dquote)).

(** [str(context_str)] for a list of dicts with string keys and values. *)
Definition str_fragment (d : Fragment) : string :=
  "{" +:+ join ", " (map (λ kv : string * string,
                            repr_str kv.1 +:+ ": " +:+ repr_str kv.2) d) +:+ "}".
Definition str_fragments (ds : list Fragment) : string :=
  "[" +:+ join ", " (map str_fragment ds) +:+ "]".

(** The f-string of [generate_answer]. *)
Definition answer_prompt (query : string) (context_str : list Fragment) : string :=
  "We have provided context information below. " +:+ nl
  +:+ "---------------------" +:+ nl
  +:+ str_fragments context_str
  +:+ nl +:+ "---------------------" +:+ nl
  +:+ "Given this information, please answer the question: " +:+ query.

Context {F : Type} `{!External F}.

Definition generate_answer (query : string) (context_str : list Fragment)
    : M F string :=
  let* choices :=
    chat_completions_create
      (mkChatRequest "gpt-3.5-turbo" (Some 0)
         [mkMessage "user" (answer_prompt query context_str)]) in
  let* completion := lift (index0 choices) in
  ret completion.

Definition chat_with_rag (query milvus_version : string) : M F string :=
  let* context_str := lift (retrieve query milvus_version) in
  let* completion := generate_answer query context_str in
  ret completion.

End Pipeline.

(** What [answer_prompt] holds before and between its two fields; nothing
    follows the question. *)
Definition answer_prompt_head : string :=
  "We have provided context information below. " +:+ nl
  +:+ "---------------------" +:+ nl.
Definition answer_prompt_middle : string :=
  nl +:+ "---------------------" +:+ nl
  +:+ "Given this information, please answer the question: ".

End ZillizPipeline.

(** ** [hybrid_and_rerank_with_langchain.ipynb] *)

Module HybridAndRerank.

(** A LangChain document: its text and where it comes from. *)
Record Document : Type := mkDocument {
  page_content : string;
  source : string
}.

#[global] Instance Document_eq_dec : EqDecision Document.
Proof. solve_decision. Defined.

(** The two retrievers of the notebook and the relevance judgment of the
    hosted reranking model, with scores of type [S] compared by [score_geb];
    [rerank_fault] is [Some e] when the reranking service cannot answer. *)
Class Retrieval (S : Type) : Type := {
  milvus_retriever : string → list Document;
  bm25_retriever : string → list Document;
  relevance : string → Document → S;
  score_geb : S → S → bool;
  rerank_fault : string → list Document → option PyExc
}.

(** Modelled from the spec: [RerankerRunnable] of
    [rag_utils/hybrid_and_rerank.py], which is not among the sources.  The
    hybrid retriever merges the two result lists by concatenation and
    deduplicates by identity, keeping the first occurrence; [seen] holds the
    documents met so far. *)
Fixpoint remove_duplicates_from (seen : list Document) (docs : list Document)
    : list Document :=
  match docs with
  | [] => []
  | doc :: rest =>
      if decide (doc ∈ seen) then remove_duplicates_from seen rest
      else doc :: remove_duplicates_from (doc :: seen) rest
  end.
Definition _remove_duplicates (docs : list Document) : list Document :=
  remove_duplicates_from [] docs.

(** Modelled from the spec: the candidates handed to the reranker, called
    [unique_documents] in the output of the notebook. *)
Definition unique_documents (milvus_retrieved_doc bm25_retrieved_doc : list Document)
    : list Document :=
  _remove_duplicates (milvus_retrieved_doc ++ bm25_retrieved_doc).

Section Reranker.
Context {S : Type} `{!Retrieval S}.

Definition more_relevant (query : string) (d1 d2 : Document) : Prop :=
  score_geb (relevance query d1) (relevance query d2) = true.

#[global] Instance more_relevant_dec query d1 d2 : Decision (more_relevant query d1 d2).
Proof. unfold more_relevant. apply _. Defined.

(** Modelled from the spec: the reranker returns the top [top_k] of the
    candidates, reordered by decreasing relevance judgment, and fails when
    the external service does. *)
Definition rerank (top_k : nat) (query : string) (candidates : list Document)
    : Result (list Document) :=
  match rerank_fault query candidates with
  | Some e => Raise e
  | None => Ok (take top_k (merge_sort (more_relevant query) candidates))
  end.

(** Modelled from the spec: [RerankerRunnable(compressor=.., top_k=..).invoke]
    on the dict with the keys [milvus_retrieved_doc], [bm25_retrieved_doc]
    and [query]. *)
Definition invoke (top_k : nat) (milvus_retrieved_doc bm25_retrieved_doc : list Document)
    (query : string) : Result (list Document) :=
  rerank top_k query (unique_documents milvus_retrieved_doc bm25_retrieved_doc).

(** The chain of the notebook, from the source: both retrievers receive the
    query, the reranker is built with [top_k=4]. *)
Definition hybrid_and_rerank_retriever (query : string) : Result (list Document) :=
  invoke 4 (milvus_retriever query) (bm25_retriever query) query.

End Reranker.

End HybridAndRerank.

(** ** Concrete services, for running the notebooks' code *)

Module Demo.

(** Hits in the order of the stored rows, at distances [top], [top - 1],
    [top - 2], ... *)
Fixpoint hits_from (top : Z) (rs : list (Row Z)) : list (Hit Z) :=
  match rs with
  | [] => []
  | r :: rest => mkHit (row_id r) top [("text", row_text r)] :: hits_from (top - 1) rest
  end.

(** Services that accept every call: the embedding of a text is its length
    and a constant, a search answers one hit list per query vector. *)
Definition online : External Z := {|
  embeddings_data input _ := [[Z.of_nat (String.length input); 1]];
  chat_choices request := ["answer from " +:+ model request];
  search_hits c data limit _ _ :=
    map (λ _, take (Z.to_nat limit) (hits_from 0 (rows c))) data;
  fault _ _ := None
|}.

(** The same services with every distance a hundred higher. *)
Definition rescored : External Z := {|
  embeddings_data := @embeddings_data Z online;
  chat_choices := @chat_choices Z online;
  search_hits c data limit _ _ :=
    map (λ _, take (Z.to_nat limit) (hits_from 100 (rows c))) data;
  fault _ _ := None
|}.

(** The same services without an OpenAI API key for completions. *)
Definition no_completions : External Z := {|
  embeddings_data := @embeddings_data Z online;
  chat_choices := @chat_choices Z online;
  search_hits := @search_hits Z online;
  fault _ c := match c with
               | ChatCompletionsCreate _ => Some (OpenAIError "api_key must be set")
               | _ => None
               end
|}.

Definition empty_world : World Z := mkWorld ∅ [].

(** A server that already holds a [rag_collection] with one row. *)
Definition used_world : World Z :=
  mkWorld {[ "rag_collection" := mkCollection 3 "L2" "Bounded" [mkRow 7 [1; 2; 3] "old"] ]} [].

(** A server holding the collections of both Milvus notebooks, loaded. *)
Definition loaded_world : World Z :=
  mkWorld {[ "my_rag_collection" :=
               mkCollection 2 "COSINE" "Strong"
                 [mkRow 0 [5; 1] "alpha"; mkRow 1 [4; 1] "beta";
                  mkRow 2 [5; 1] "gamma"; mkRow 3 [5; 1] "delta"];
             "rag_collection" :=
               mkCollection 2 "IP" "Strong"
                 [mkRow 0 [3; 1] "one"; mkRow 1 [3; 1] "two"; mkRow 2 [5; 1] "three"] ]} [].

(** A results directory with an unreadable file, and one with a malformed
    file; the elements are numbers. *)
Definition results_dir : RagWithUnstructured.Files Z := {|
  RagWithUnstructured.os_listdir d :=
    if String.eqb d "out" then Ok ["a.json"; "notes.txt"; "b.json"; "c.json"]
    else if String.eqb d "bad" then Ok ["x.json"; "y.json"]
    else Raise (IOError "No such file or directory");
  RagWithUnstructured.elements_from_json p :=
    if String.eqb p "out/a.json" then Ok [1; 2]
    else if String.eqb p "out/c.json" then Ok [3]
    else if String.eqb p "bad/x.json" then Raise (ValueError "Expecting value")
    else if String.eqb p "bad/y.json" then Ok [4]
    else Raise (IOError "Permission denied")
|}.

Definition doc_chunk (i : Z) (text version : string) : ZillizPipeline.Chunk :=
  ZillizPipeline.mkChunk i text [("version", version)].

(** A collection with the two versions of one document, interleaved. *)
Definition two_versions : ZillizPipeline.SearchService := {|
  ZillizPipeline.nearest _ :=
    [doc_chunk 1 "delete by key or expression" "2.3";
     doc_chunk 2 "delete by key" "2.2";
     doc_chunk 3 "prepare expression, 2.3" "2.3";
     doc_chunk 4 "prepare expression, 2.2" "2.2";
     doc_chunk 5 "time travel" "2.2"];
  ZillizPipeline.repr_str s := "'" +:+ s +:+ "'"
|}.

Definition doc (text : string) : HybridAndRerank.Document :=
  HybridAndRerank.mkDocument text "blog".

(** Two retrievers with four results each, two of them shared; a document
    is the more relevant the longer it is. *)
Definition four_and_four : HybridAndRerank.Retrieval nat := {|
  HybridAndRerank.milvus_retriever _ := [doc "a"; doc "bb"; doc "ccc"; doc "dddd"];
  HybridAndRerank.bm25_retriever _ := [doc "ccc"; doc "eeeee"; doc "a"; doc "ffffff"];
  HybridAndRerank.relevance _ d := String.length (HybridAndRerank.page_content d);
  HybridAndRerank.score_geb a b := Nat.leb b a;
  HybridAndRerank.rerank_fault _ _ := None
|}.

(** The same services as [online] without an OpenAI API key for embeddings. *)
Definition no_embeddings : External Z := {|
  embeddings_data := @embeddings_data Z online;
  chat_choices := @chat_choices Z online;
  search_hits := @search_hits Z online;
  fault _ c := match c with
               | EmbeddingsCreate _ _ => Some (OpenAIError "api_key must be set")
               | _ => None
               end
|}.

(** The same services as [online] with a server that refuses inserts. *)
Definition insert_refused : External Z := {|
  embeddings_data := @embeddings_data Z online;
  chat_choices := @chat_choices Z online;
  search_hits := @search_hits Z online;
  fault _ c := match c with
               | Insert _ _ => Some (MilvusException "insert refused")
               | _ => None
               end
|}.

(** The same services as [online] with completions that hold no choice. *)
Definition no_choices : External Z := {|
  embeddings_data := @embeddings_data Z online;
  chat_choices _ := [];
  search_hits := @search_hits Z online;
  fault _ _ := None
|}.

(** The same services as [online] with a search whose hits lack the [text]
    field. *)
Definition no_text_field : External Z := {|
  embeddings_data := @embeddings_data Z online;
  chat_choices := @chat_choices Z online;
  search_hits _ data _ _ _ := map (λ _, [mkHit 0 0 [("title", "untitled")]]) data;
  fault _ _ := None
|}.

(** The directory of [results_dir] with other contents in the files that are
    not [.json] files. *)
Definition results_dir_other_notes : RagWithUnstructured.Files Z := {|
  RagWithUnstructured.os_listdir := @RagWithUnstructured.os_listdir Z results_dir;
  RagWithUnstructured.elements_from_json p :=
    if String.eqb p "out/notes.txt" then Ok [99]
    else @RagWithUnstructured.elements_from_json Z results_dir p
|}.

End Demo.

(** * Properties *)

(** ** Python helpers *)

Lemma slice_to_length {A} (xs : list A) (k : Z) :
  0 ≤ k → Z.of_nat (length (slice_to xs k)) ≤ k.
Proof.
  intros Hk. unfold slice_to.
  destruct (Z.leb_spec 0 k) as [_|Hneg]; [|lia].
  rewrite length_take. lia.
Qed.

Lemma slice_to_prefix {A} (xs : list A) (k : Z) :
  0 ≤ k → slice_to xs k = take (Z.to_nat k) xs.
Proof.
  intros Hk. unfold slice_to. destruct (Z.leb_spec 0 k); [done | lia].
Qed.

Lemma append_empty (s : string) : s +:+ EmptyString = s.
Proof.
  induction s as [|c s IH]; [done|].
  change (String c (s +:+ EmptyString) = String c s). by rewrite IH.
Qed.

Example slice_to_within : slice_to [1; 2; 3] 2 = [1; 2].
Proof. reflexivity. Qed.

Example slice_to_beyond : slice_to [1; 2; 3] 5 = [1; 2; 3].
Proof. reflexivity. Qed.

Example slice_to_negative : slice_to [1; 2; 3] (-1) = [1; 2].
Proof. reflexivity. Qed.

Example join_lines : join nl ["a"; "b"; "c"] = "a" +:+ nl +:+ "b" +:+ nl +:+ "c".
Proof. reflexivity. Qed.

Example endswith_json :
  endswith "a.json" ".json" = true ∧ endswith "a.json.bak" ".json" = false.
Proof. split; reflexivity. Qed.

Example path_join_plain :
  path_join "./pdf_processed_outputs" "a.json" = "./pdf_processed_outputs/a.json".
Proof. reflexivity. Qed.

Example path_join_trailing_slash : path_join "out/" "a.json" = "out/a.json".
Proof. reflexivity. Qed.

Example enumerate_lines : enumerate ["a"; "b"] = [(0, "a"); (1, "b")].
Proof. reflexivity. Qed.

Example format_fields :
  format "{a}-{{b}}-{c}" [("a", "1"); ("c", "3")] = Ok "1-{b}-3".
Proof. reflexivity. Qed.

Example format_missing_key : format "{a}" [("b", "1")] = Raise (KeyError "a").
Proof. reflexivity. Qed.

Example parse_equality_version :
  ZillizPipeline.parse_equality ("version == " +:+ dquote +:+ "2.2" +:+ dquote)
  = Some ("version", "2.2").
Proof. reflexivity. Qed.

Example parse_equality_other_expression :
  ZillizPipeline.parse_equality
    ("version == " +:+ dquote +:+ "2.2" +:+ dquote +:+ " or version == "
       +:+ dquote +:+ "2.3" +:+ dquote)
  = None.
Proof. reflexivity. Qed.

Example remove_duplicates_keeps_first :
  HybridAndRerank._remove_duplicates
    [Demo.doc "a"; Demo.doc "b"; Demo.doc "a"; Demo.doc "c"; Demo.doc "b"]
  = [Demo.doc "a"; Demo.doc "b"; Demo.doc "c"].
Proof. reflexivity. Qed.

Lemma index0_ok {A} (xs : list A) (x : A) :
  index0 xs = Ok x → ∃ rest, xs = x :: rest.
Proof. destruct xs as [|y rest]; simpl; [done|]. intros [= ->]. by exists rest. Qed.

Lemma rbind_ok {A B} (r : Result A) (k : A → Result B) (b : B) :
  rbind r k = Ok b → ∃ a, r = Ok a ∧ k a = Ok b.
Proof. destruct r as [a|e]; simpl; [|done]. intros H. by exists a. Qed.

Lemma rmap_ok {A B} (f : A → B) (r : Result A) (b : B) :
  rmap f r = Ok b → ∃ a, r = Ok a ∧ b = f a.
Proof.
  unfold rmap. intros H. apply rbind_ok in H as (a & -> & [= <-]). by exists a.
Qed.

(** A comprehension that returns has one output per input, in order. *)
Lemma comprehension_ok {A B} (f : A → Result B) (xs : list A) (ys : list B) :
  comprehension f xs = Ok ys → Forall2 (λ x y, f x = Ok y) xs ys.
Proof.
  revert ys. induction xs as [|x rest IH]; simpl; intros ys H.
  - injection H as <-. constructor.
  - apply rbind_ok in H as (y & Hy & H).
    apply rmap_ok in H as (ys' & Hys & ->).
    constructor; [done | by apply IH].
Qed.

Lemma comprehension_total {A B} (f : A → Result B) (g : A → B) (xs : list A) :
  Forall (λ x, f x = Ok (g x)) xs → comprehension f xs = Ok (map g xs).
Proof.
  induction 1 as [|x rest Hx _ IH]; simpl; [done|].
  by rewrite Hx, IH.
Qed.

(** ** Computations: how a result comes about *)

Section Computations.
Context {F : Type} `{!External F}.

Lemma bind_ok {A B} (m : M F A) (k : A → M F B) w b w' :
  bind m k w = (Ok b, w') → ∃ a w1, m w = (Ok a, w1) ∧ k a w1 = (Ok b, w').
Proof.
  unfold bind. destruct (m w) as [[a|e] w1]; [|done].
  intros H. by exists a, w1.
Qed.

Lemma bind_raise {A B} (m : M F A) (k : A → M F B) w e w' :
  bind m k w = (Raise e, w') →
  m w = (Raise e, w') ∨ ∃ a w1, m w = (Ok a, w1) ∧ k a w1 = (Raise e, w').
Proof.
  unfold bind. destruct (m w) as [[a|e1] w1].
  - intros H. right. by exists a, w1.
  - intros [= -> ->]. by left.
Qed.

Lemma ret_ok {A} (a b : A) (w w' : World F) :
  ret a w = (Ok b, w') → b = a ∧ w' = w.
Proof. by intros [= -> ->]. Qed.

Lemma lift_ok {A} (r : Result A) (a : A) (w w' : World F) :
  lift r w = (Ok a, w') → r = Ok a ∧ w' = w.
Proof. by intros [= -> ->]. Qed.

Lemma external_ok (c : Call F) w u w' :
  external c w = (Ok u, w') →
  fault (store w) c = None ∧ w' = mkWorld (store w) (log w ++ [(c, None)]).
Proof.
  unfold external. destruct (fault (store w) c) as [e|]; [done|].
  by intros [= _ <-].
Qed.

Lemma external_raise (c : Call F) w e w' :
  external c w = (Raise e, w') →
  fault (store w) c = Some e ∧ w' = mkWorld (store w) (log w ++ [(c, Some e)]).
Proof.
  unfold external. destruct (fault (store w) c) as [e1|]; [|done].
  by intros [= -> <-].
Qed.

Lemma read_store_ok s (w w' : World F) :
  read_store w = (Ok s, w') → s = store w ∧ w' = w.
Proof. by intros [= <- <-]. Qed.

Lemma update_store_ok f u (w w' : World F) :
  update_store f w = (Ok u, w') → w' = mkWorld (f (store w)) (log w).
Proof. by intros [= <-]. Qed.

Lemma lift_raise {A} (r : Result A) (e : PyExc) (w w' : World F) :
  lift r w = (Raise e, w') → r = Raise e ∧ w' = w.
Proof. by intros [= -> ->]. Qed.

End Computations.

(** Takes the hypotheses [m w = (Ok a, w')] apart along the binds of [m]. *)
Ltac step_ok :=
  match goal with
  | H : bind _ _ _ = (Ok _, _) |- _ => apply bind_ok in H as (? & ? & ? & ?)
  | H : ret _ _ = (Ok _, _) |- _ => apply ret_ok in H as [? ?]; subst
  | H : lift _ _ = (Ok _, _) |- _ => apply lift_ok in H as [? ?]; subst
  | H : external _ _ = (Ok _, _) |- _ => apply external_ok in H as [? ?]; subst
  | H : read_store _ = (Ok _, _) |- _ => apply read_store_ok in H as [? ?]; subst
  | H : update_store _ _ = (Ok _, _) |- _ => apply update_store_ok in H; subst
  end.
Ltac run_ok := repeat (step_ok; simpl in * ).

(** The same for the hypotheses [m w = (Raise e, w')]: one case per call
    that may have raised. *)
Ltac step_raise :=
  match goal with
  | H : bind _ _ _ = (Raise _, _) |- _ =>
      apply bind_raise in H as [? | (? & ? & ? & ?)]
  | H : external _ _ = (Raise _, _) |- _ =>
      apply external_raise in H as [? ?]; subst
  | H : lift _ _ = (Raise _, _) |- _ => apply lift_raise in H as [? ?]; subst
  | H : ret _ _ = (Raise _, _) |- _ => discriminate H
  | H : read_store _ = (Raise _, _) |- _ => discriminate H
  | H : update_store _ _ = (Raise _, _) |- _ => discriminate H
  end.
Ltac run_all := repeat ((step_ok || step_raise); simpl in * ).

(** ** The client calls, when they return *)

Section ClientCalls.
Context {F : Type} `{!External F}.

Lemma embeddings_create_ok input model w data w' :
  embeddings_create input model w = (Ok data, w') →
  data = embeddings_data input model ∧
  w' = mkWorld (store w) (log w ++ [(EmbeddingsCreate input model, None)]).
Proof. unfold embeddings_create. intros H. run_ok. done. Qed.

Lemma chat_completions_create_ok request w choices w' :
  chat_completions_create request w = (Ok choices, w') →
  choices = chat_choices request ∧
  w' = mkWorld (store w) (log w ++ [(ChatCompletionsCreate request, None)]).
Proof. unfold chat_completions_create. intros H. run_ok. done. Qed.

Lemma has_collection_ok name w b w' :
  has_collection name w = (Ok b, w') →
  b = bool_decide (is_Some (store w !! name)) ∧
  w' = mkWorld (store w) (log w ++ [(HasCollection name, None)]).
Proof. unfold has_collection. intros H. run_ok. done. Qed.

Lemma drop_collection_ok name w u w' :
  drop_collection name w = (Ok u, w') →
  w' = mkWorld (delete name (store w)) (log w ++ [(DropCollection name, None)]).
Proof. unfold drop_collection. intros H. run_ok. done. Qed.

Lemma create_collection_ok name dim metric consistency w u w' :
  create_collection name dim metric consistency w = (Ok u, w') →
  store w !! name = None →
  w' = mkWorld (<[name := mkCollection dim metric consistency []]> (store w))
         (log w ++ [(CreateCollection name dim metric consistency, None)]).
Proof.
  unfold create_collection. intros H Hfree. run_ok.
  by rewrite Hfree.
Qed.

Lemma insert_rows_ok name data w u w' :
  insert_rows name data w = (Ok u, w') →
  ∃ c, store w !! name = Some c ∧
       w' = mkWorld (<[name := mkCollection (dimension c) (metric_type c)
                                  (consistency_level c) (put_rows (rows c) data)]>
                (store w))
              (log w ++ [(Insert name data, None)]).
Proof.
  unfold insert_rows. intros H. run_ok.
  destruct (store w !! name) as [c|] eqn:Hc; [|done].
  exists c. split; [done|]. run_ok. done.
Qed.

(** Storing rows with distinct keys: the stored rows with other keys stay,
    in their order, and the new rows follow. *)
Lemma other_key_cons (k : Z) (keys : list Z) (r : Row F) :
  other_key (k :: keys) r = other_key [k] r && other_key keys r.
Proof.
  unfold other_key, has_key.
  repeat case_bool_decide; simpl; try done;
    repeat match goal with
           | H : _ ∈ _ :: _ |- _ => apply elem_of_cons in H as [H|H]
           | H : _ ∈ [] |- _ => by apply elem_of_nil in H
           | H : ¬ (_ ∈ _ :: _) |- _ => rewrite elem_of_cons in H
           end; tauto.
Qed.

Lemma filter_filter_bool {A} (f g : A → bool) (l : list A) :
  List.filter g (List.filter f l) = List.filter (λ x, f x && g x) l.
Proof.
  induction l as [|x l IH]; simpl; [done|].
  destruct (f x); simpl; [|done]. destruct (g x); by rewrite IH.
Qed.

Lemma filter_none {A} (f : A → bool) (l : list A) :
  Forall (λ x, f x = false) l → List.filter f l = [].
Proof. induction 1 as [|x l Hx _ IH]; simpl; [done|]. by rewrite Hx. Qed.

Lemma filter_all {A} (f : A → bool) (l : list A) :
  Forall (λ x, f x = true) l → List.filter f l = l.
Proof. induction 1 as [|x l Hx _ IH]; simpl; [done|]. by rewrite Hx, IH. Qed.

Lemma put_rows_distinct (stored data : list (Row F)) :
  NoDup (map row_id data) →
  put_rows stored data = List.filter (other_key (map row_id data)) stored ++ data.
Proof.
  revert stored. induction data as [|r data IH]; intros stored Hnodup.
  - change (put_rows stored []) with stored.
    rewrite app_nil_r. symmetry. apply filter_all, Forall_forall. intros x _.
    unfold other_key, has_key. rewrite bool_decide_eq_false_2; [done|].
    apply not_elem_of_nil.
  - change (map row_id (r :: data)) with (row_id r :: map row_id data) in *.
    apply NoDup_cons in Hnodup as [Hfresh Hnodup].
    change (put_rows stored (r :: data)) with (put_rows (put_row stored r) data).
    rewrite IH by done. unfold put_row.
    rewrite List.filter_app, filter_filter_bool.
    assert (List.filter (other_key (map row_id data)) [r] = [r]) as ->.
    { apply filter_all. constructor; [|done].
      unfold other_key, has_key. by rewrite bool_decide_eq_false_2. }
    rewrite <- app_assoc. f_equal.
    apply List.filter_ext. intros x. symmetry. apply other_key_cons.
Qed.

Lemma has_key_own (data : list (Row F)) :
  Forall (λ r, has_key (map row_id data) r = true) data.
Proof.
  apply Forall_forall. intros r Hr. unfold has_key. apply bool_decide_eq_true_2.
  by apply list_elem_of_fmap_2.
Qed.

(** After such an insert the rows with the new keys are the new rows, and
    the rows with other keys are those that were stored. *)
Lemma put_rows_new (stored data : list (Row F)) :
  NoDup (map row_id data) →
  List.filter (has_key (map row_id data)) (put_rows stored data) = data.
Proof.
  intros Hnodup. rewrite put_rows_distinct by done.
  rewrite List.filter_app, filter_filter_bool.
  rewrite (filter_none (λ x, other_key _ x && has_key _ x)).
  - apply filter_all, has_key_own.
  - apply Forall_forall. intros x _. unfold other_key. by destruct (has_key _ x).
Qed.

Lemma put_rows_old (stored data : list (Row F)) :
  NoDup (map row_id data) →
  List.filter (other_key (map row_id data)) (put_rows stored data)
  = List.filter (other_key (map row_id data)) stored.
Proof.
  intros Hnodup. rewrite put_rows_distinct by done.
  rewrite List.filter_app, filter_filter_bool.
  rewrite (filter_none (other_key _) data).
  - rewrite app_nil_r. apply List.filter_ext. intros x. by destruct (other_key _ x).
  - eapply Forall_impl; [apply has_key_own|]. intros x Hx. unfold other_key.
    by rewrite Hx.
Qed.

(** Keys numbered from 0 are distinct. *)
Lemma numbered_keys_distinct (data : list (Row F)) (n : nat) :
  map row_id data = map Z.of_nat (seq 0 n) → NoDup (map row_id data).
Proof.
  intros ->. apply NoDup_ListNoDup, Finite.Injective_map_NoDup; [|apply List.seq_NoDup].
  intros i j. lia.
Qed.

(** Storing the same rows once more changes nothing. *)
Lemma put_rows_again (stored data : list (Row F)) :
  NoDup (map row_id data) →
  put_rows (put_rows stored data) data = put_rows stored data.
Proof.
  intros Hnodup.
  rewrite (put_rows_distinct (put_rows stored data)) by done.
  rewrite put_rows_old by done. symmetry. by apply put_rows_distinct.
Qed.

Lemma search_ok name data limit metric output_fields w res w' :
  search name data limit metric output_fields w = (Ok res, w') →
  ∃ c, store w !! name = Some c ∧
       res = search_hits c data limit metric output_fields ∧
       w' = mkWorld (store w)
              (log w ++ [(Search name data limit metric output_fields, None)]).
Proof.
  unfold search. intros H. run_ok.
  destruct (store w !! name) as [c|] eqn:Hc; [|done].
  exists c. run_ok. done.
Qed.

End ClientCalls.

(** ** Retrieval, when it returns *)

Section Retrieval.
Context {F : Type} `{!External F}.
Import EvaluationWithRagas.

Lemma _emb_text_ok self text w v w' :
  _emb_text self text w = (Ok v, w') →
  index0 (embeddings_data text (embedding_model self)) = Ok v ∧
  w' = mkWorld (store w)
         (log w ++ [(EmbeddingsCreate text (embedding_model self), None)]).
Proof.
  unfold _emb_text. intros H. run_ok.
  match goal with H : embeddings_create _ _ _ = _ |- _ =>
    apply embeddings_create_ok in H as [-> ->] end.
  done.
Qed.

(** [RAG.retrieve] returns the texts of the first hit list of the search,
    in the order of the hits, cut to [top_k]. *)
Lemma retrieve_ok self question top_k w texts w' :
  retrieve self question top_k w = (Ok texts, w') →
  ∃ v c hits all_texts,
    index0 (embeddings_data question (embedding_model self)) = Ok v ∧
    store w !! collection_name self = Some c ∧
    index0 (search_hits c [v] top_k (Some "IP") ["text"]) = Ok hits ∧
    Forall2 (λ h t, dict_get (hit_entity h) "text" = Ok t) hits all_texts ∧
    texts = slice_to all_texts top_k ∧
    w' = mkWorld (store w)
           (log w ++ [(EmbeddingsCreate question (embedding_model self), None);
                      (Search (collection_name self) [v] top_k (Some "IP") ["text"], None)]).
Proof.
  unfold retrieve. intros H. run_ok.
  match goal with H : _emb_text _ _ _ = _ |- _ =>
    apply _emb_text_ok in H as [Hv ->] end.
  match goal with H : search _ _ _ _ _ _ = _ |- _ =>
    apply search_ok in H as (c & Hc & -> & ->) end.
  match goal with H : comprehension _ _ = _ |- _ =>
    apply comprehension_ok in H end.
  eexists _, c, _, _. repeat split; try eassumption.
  simpl. by rewrite <- app_assoc.
Qed.

Lemma emb_text_ok text w v w' :
  RagWithUnstructured.emb_text text w = (Ok v, w') →
  index0 (embeddings_data text "text-embedding-3-small") = Ok v ∧
  w' = mkWorld (store w)
         (log w ++ [(EmbeddingsCreate text "text-embedding-3-small", None)]).
Proof.
  unfold RagWithUnstructured.emb_text. intros H. run_ok.
  match goal with H : embeddings_create _ _ _ = _ |- _ =>
    apply embeddings_create_ok in H as [-> ->] end.
  done.
Qed.

(** [retrieve_documents] returns one (text, distance) pair per hit of the
    first hit list, in the order of the hits. *)
Lemma retrieve_documents_ok question top_k w docs w' :
  RagWithUnstructured.retrieve_documents question top_k w = (Ok docs, w') →
  ∃ v c hits,
    index0 (embeddings_data question "text-embedding-3-small") = Ok v ∧
    store w !! RagWithUnstructured.collection_name = Some c ∧
    index0 (search_hits c [v] top_k None ["text"]) = Ok hits ∧
    Forall2 (λ h d, dict_get (hit_entity h) "text" = Ok d.1 ∧ d.2 = hit_distance h)
      hits docs ∧
    w' = mkWorld (store w)
           (log w ++ [(EmbeddingsCreate question "text-embedding-3-small", None);
                      (Search RagWithUnstructured.collection_name [v] top_k None ["text"],
                       None)]).
Proof.
  unfold RagWithUnstructured.retrieve_documents. intros H. run_ok.
  match goal with H : RagWithUnstructured.emb_text _ _ = _ |- _ =>
    apply emb_text_ok in H as [Hv ->] end.
  match goal with H : search _ _ _ _ _ _ = _ |- _ =>
    apply search_ok in H as (c & Hc & -> & ->) end.
  match goal with H : comprehension _ _ = _ |- _ =>
    apply comprehension_ok in H; rename H into Hdocs end.
  eexists _, c, _. repeat split; try eassumption.
  - eapply Forall2_impl; [exact Hdocs|]. simpl.
    intros h d Hd. apply rmap_ok in Hd as (t & Ht & ->). done.
  - simpl. by rewrite <- app_assoc.
Qed.

End Retrieval.

(** ** How many results a retrieval returns *)

(** C1. For a bound [top_k] that is not negative, [RAG.retrieve] returns at
    most [top_k] texts, whatever the search answered, because it cuts the
    list with [[:top_k]]; [retrieve_documents] returns one pair per hit, so
    at most [top_k] pairs when every hit list of the search honours
    [limit=top_k]. *)
Theorem retrieve_at_most_top_k {F : Type} `{!External F}
    (self : EvaluationWithRagas.RAG) (question : string) (top_k : Z) (w : World F) :
  0 ≤ top_k →
  (∀ texts w',
     EvaluationWithRagas.retrieve self question top_k w = (Ok texts, w') →
     Z.of_nat (length texts) ≤ top_k) ∧
  ((∀ c data metric fields hits,
      hits ∈ search_hits c data top_k metric fields →
      Z.of_nat (length hits) ≤ top_k) →
   ∀ docs w',
     RagWithUnstructured.retrieve_documents question top_k w = (Ok docs, w') →
     Z.of_nat (length docs) ≤ top_k).
Proof.
  intros Hk. split.
  - intros texts w' H.
    apply retrieve_ok in H as (v & c & hits & all_texts & _ & _ & _ & _ & -> & _).
    by apply slice_to_length.
  - intros Hlimit docs w' H.
    apply retrieve_documents_ok in H as (v & c & hits & _ & _ & Hhits & Hdocs & _).
    apply Forall2_length in Hdocs. rewrite <- Hdocs.
    apply index0_ok in Hhits as [rest Hrest].
    apply (Hlimit c [v] None ["text"]). rewrite Hrest. apply list_elem_of_here.
Qed.

Lemma retrieve_at_most_top_k_witness :
  ∃ texts docs w1 w2,
    @EvaluationWithRagas.retrieve Z Demo.online EvaluationWithRagas.default_attributes "which?" 2 Demo.loaded_world
      = (Ok texts, w1) ∧
    Z.of_nat (length texts) ≤ 2 ∧
    @RagWithUnstructured.retrieve_documents Z Demo.online "which?" 2 Demo.loaded_world
      = (Ok docs, w2) ∧
    Z.of_nat (length docs) ≤ 2.
Proof.
  destruct (@retrieve_at_most_top_k Z Demo.online EvaluationWithRagas.default_attributes "which?" 2
              Demo.loaded_world ltac:(lia)) as [Htexts Hdocs].
  eexists _, _, _, _.
  split; [vm_compute; reflexivity|].
  split; [eapply Htexts; vm_compute; reflexivity|].
  split; [vm_compute; reflexivity|].
  eapply Hdocs; [|vm_compute; reflexivity].
  intros c data metric fields hits Hin. simpl in Hin.
  apply list_elem_of_fmap in Hin as (_ & -> & _).
  rewrite length_take. lia.
Defined.

(** ** The constructor of [RAG] *)

(** C9. Whenever [RAG(...)] returns, the server holds a collection
    ["rag_collection"] with no rows, of the dimension of the probe
    embedding of ["foo"], metric ["IP"] and consistency ["Strong"], whatever
    it held under that name before; a collection of that name is dropped
    exactly when it existed.  The constructor returns whenever the services
    accept its calls and the embedding response is not empty. *)
Theorem init_leaves_fresh_collection {F : Type} `{!External F} (w : World F) :
  let name := "rag_collection" in
  let embedder := "text-embedding-3-small" in
  (∀ self w',
     EvaluationWithRagas.__init__ w = (Ok self, w') →
     ∃ probe,
       index0 (embeddings_data "foo" embedder) = Ok probe ∧
       store w' !! name = Some (mkCollection (length probe) "IP" "Strong" []) ∧
       EvaluationWithRagas.collection_name self = name ∧
       log w' = (log w ++ [(HasCollection name, None)]
                  ++ (if bool_decide (is_Some (store w !! name))
                      then [(DropCollection name, None)] else [])
                  ++ [(EmbeddingsCreate "foo" embedder, None);
                      (CreateCollection name (length probe) "IP" "Strong", None)])%list) ∧
  ((∀ s c, fault s c = None) →
   ∀ probe, index0 (embeddings_data "foo" embedder) = Ok probe →
   ∃ self w', EvaluationWithRagas.__init__ w = (Ok self, w')).
Proof.
  intros name embedder. split.
  - intros self w' H.
    unfold EvaluationWithRagas.__init__, EvaluationWithRagas._prepare_milvus in H.
    run_ok.
    match goal with H : has_collection _ _ = _ |- _ =>
      apply has_collection_ok in H as [-> ->] end.
    match goal with H : EvaluationWithRagas._emb_text _ _ _ = _ |- _ =>
      apply _emb_text_ok in H as [Hprobe ->] end.
    subst name embedder. simpl in *. exists x3.
    set (name := "rag_collection") in *.
    assert (store x2 !! name = None ∧
            log x2 = (log w ++ [(HasCollection name, None)]
                        ++ (if bool_decide (is_Some (store w !! name))
                            then [(DropCollection name, None)] else []))%list)
      as [Hfree Hlog].
    { destruct (bool_decide (is_Some (store w !! name))) eqn:Hhas.
      - match goal with H : drop_collection _ _ = _ |- _ =>
          apply drop_collection_ok in H as -> end.
        simpl. split; [apply lookup_delete_eq | by rewrite <- app_assoc].
      - run_ok. split; [|done].
        apply bool_decide_eq_false in Hhas.
        by apply eq_None_not_Some. }
    match goal with H : create_collection _ _ _ _ _ = _ |- _ =>
      apply create_collection_ok in H as ->; [|exact Hfree] end.
    simpl. repeat split; [done | apply lookup_insert_eq |].
    rewrite Hlog. by rewrite <- !app_assoc.
  - intros Hfault probe Hprobe. subst name embedder.
    destruct (EvaluationWithRagas.__init__ w) as [[self|e] w'] eqn:H; [eauto|].
    exfalso.
    unfold EvaluationWithRagas.__init__, EvaluationWithRagas._prepare_milvus,
      EvaluationWithRagas._emb_text, has_collection, create_collection,
      embeddings_create in H.
    run_all;
      try match goal with H : fault _ _ = Some _ |- _ =>
            by rewrite Hfault in H end;
      try congruence.
    all: destruct (bool_decide _); unfold drop_collection in *; run_all;
      try match goal with H : fault _ _ = Some _ |- _ =>
            by rewrite Hfault in H end.
Qed.

Lemma init_leaves_fresh_collection_witness :
  ∃ self w',
    @EvaluationWithRagas.__init__ Z Demo.online Demo.used_world = (Ok self, w') ∧
    store w' !! "rag_collection" = Some (mkCollection 2 "IP" "Strong" []).
Proof.
  destruct (@init_leaves_fresh_collection Z Demo.online Demo.used_world)
    as [Hfresh Htotal].
  destruct (Htotal (λ _ _, eq_refl) [3; 1] eq_refl) as (self & w' & Hinit).
  exists self, w'. split; [exact Hinit|].
  destruct (Hfresh self w' Hinit) as (probe & Hprobe & Hstore & _).
  vm_compute in Hprobe. injection Hprobe as <-. exact Hstore.
Defined.

(** ** [RAG.answer] *)

Section Answer.
Context {F : Type} `{!External F}.
Import EvaluationWithRagas.

Lemma answer_ok self question k flag w r w' :
  answer self question k flag w = (Ok r, w') →
  ∃ texts w1 user_prompt a,
    let request :=
      mkChatRequest (llm_model self) None
        [mkMessage "system" (SYSTEM_PROMPT self); mkMessage "user" user_prompt] in
    retrieve self question k w = (Ok texts, w1) ∧
    format (USER_PROMPT self)
      [("context", join nl texts); ("question", question)] = Ok user_prompt ∧
    index0 (chat_choices request) = Ok a ∧
    r = (if flag then AnswerWithTexts a texts else AnswerText a) ∧
    w' = mkWorld (store w1) (log w1 ++ [(ChatCompletionsCreate request, None)]).
Proof.
  unfold answer. intros H. run_ok.
  match goal with H : chat_completions_create _ _ = _ |- _ =>
    apply chat_completions_create_ok in H as [-> ->] end.
  eexists _, _, _, _. split; [eassumption|]. split; [eassumption|].
  split; [eassumption|].
  destruct flag; simpl in *; run_ok; done.
Qed.

(** The flag changes the shape of the result and nothing else. *)
Lemma answer_flag self question k w :
  answer self question k false w =
    match answer self question k true w with
    | (Ok r, w') => (Ok (AnswerText (answer_text r)), w')
    | (Raise e, w') => (Raise e, w')
    end.
Proof.
  unfold answer, bind.
  destruct (retrieve self question k w) as [[texts|e] w1]; [|done].
  unfold lift.
  destruct (format _ _) as [user_prompt|e]; [|done].
  destruct (chat_completions_create _ w1) as [[choices|e] w2]; [|done].
  destruct (index0 choices); done.
Qed.

End Answer.

(** C10. With [return_retrieved_text=True], [RAG.answer] returns the pair of
    the answer and exactly the texts [RAG.retrieve] returns for the same
    question and bound; with [False] it returns the answer alone.  Either
    way the answer is the first choice of the one completion requested for
    the prompt formatted from those texts, the same calls are made, and the
    two calls fail together. *)
Theorem answer_returns_retrieved_texts {F : Type} `{!External F}
    (self : EvaluationWithRagas.RAG) (question : string) (retrieval_top_k : Z)
    (w : World F) :
  let answer := EvaluationWithRagas.answer self question retrieval_top_k in
  (∀ r w', answer true w = (Ok r, w') →
     ∃ a texts w1 user_prompt,
       r = EvaluationWithRagas.AnswerWithTexts a texts ∧
       EvaluationWithRagas.retrieve self question retrieval_top_k w = (Ok texts, w1) ∧
       answer false w = (Ok (EvaluationWithRagas.AnswerText a), w') ∧
       format (EvaluationWithRagas.USER_PROMPT self)
         [("context", join nl texts); ("question", question)] = Ok user_prompt ∧
       index0 (chat_choices
                 (mkChatRequest (EvaluationWithRagas.llm_model self) None
                    [mkMessage "system" (EvaluationWithRagas.SYSTEM_PROMPT self);
                     mkMessage "user" user_prompt])) = Ok a) ∧
  (∀ r w', answer false w = (Ok r, w') →
     ∃ a texts,
       r = EvaluationWithRagas.AnswerText a ∧
       answer true w = (Ok (EvaluationWithRagas.AnswerWithTexts a texts), w')) ∧
  (∀ e w', answer true w = (Raise e, w') ↔ answer false w = (Raise e, w')).
Proof.
  intros answer. subst answer. split; [|split].
  - intros r w' H. pose proof (answer_flag self question retrieval_top_k w) as Hflag.
    rewrite H in Hflag.
    apply answer_ok in H as (texts & w1 & user_prompt & a & Hr & Hf & Ha & -> & ->).
    by exists a, texts, w1, user_prompt.
  - intros r w' H. pose proof (answer_flag self question retrieval_top_k w) as Hflag.
    rewrite H in Hflag.
    destruct (EvaluationWithRagas.answer self question retrieval_top_k true w)
      as [[r'|e] w''] eqn:Htrue; [|done].
    injection Hflag as -> ->.
    apply answer_ok in Htrue as (texts & w1 & user_prompt & a & _ & _ & _ & -> & ->).
    by exists a, texts.
  - intros e w'. rewrite (answer_flag self question retrieval_top_k w).
    destruct (EvaluationWithRagas.answer self question retrieval_top_k true w)
      as [[r'|e'] w'']; split; congruence.
Qed.

Lemma answer_returns_retrieved_texts_witness :
  ∃ a w',
    @EvaluationWithRagas.answer Z Demo.online EvaluationWithRagas.default_attributes
      "which?" 2 true Demo.loaded_world
      = (Ok (EvaluationWithRagas.AnswerWithTexts a ["one"; "two"]), w') ∧
    @EvaluationWithRagas.answer Z Demo.online EvaluationWithRagas.default_attributes
      "which?" 2 false Demo.loaded_world
      = (Ok (EvaluationWithRagas.AnswerText a), w').
Proof.
  destruct (@answer_returns_retrieved_texts Z Demo.online
              EvaluationWithRagas.default_attributes "which?" 2 Demo.loaded_world)
    as [Hpair _].
  edestruct Hpair as (a & texts & w1 & user_prompt & Hr & _ & Hfalse & _);
    [vm_compute; reflexivity|].
  injection Hr as <- <-.
  eexists _, _. split; [vm_compute; reflexivity | exact Hfalse].
Defined.

(** ** The generators *)

Section Generators.
Context {F : Type} `{!External F}.
Import EvaluationWithRagas.

Lemma init_attributes (w : World F) self w' :
  __init__ w = (Ok self, w') → self = default_attributes.
Proof.
  unfold __init__, _prepare_milvus. intros H. run_ok. done.
Qed.

(** [str.format] on [USER_PROMPT] puts the two values in place of the two
    fields and keeps the rest of the template. *)
Lemma format_USER_PROMPT (context question : string) :
  format (USER_PROMPT default_attributes)
    [("context", context); ("question", question)]
  = Ok (from_template USER_PROMPT_head USER_PROMPT_middle USER_PROMPT_tail
          context question).
Proof. vm_compute. reflexivity. Qed.

Lemma user_prompt_template (context question : string) :
  RagWithUnstructured.user_prompt context question
  = from_template RagWithUnstructured.user_prompt_head
      RagWithUnstructured.user_prompt_middle RagWithUnstructured.user_prompt_tail
      context question.
Proof. vm_compute. reflexivity. Qed.

Lemma generate_rag_response_ok question w text w' :
  RagWithUnstructured.generate_rag_response question w = (Ok text, w') →
  ∃ docs w1,
    let request :=
      mkChatRequest "gpt-4o-mini" None
        [mkMessage "system" RagWithUnstructured.system_prompt;
         mkMessage "user"
           (RagWithUnstructured.user_prompt
              (RagWithUnstructured.context_of docs) question)] in
    RagWithUnstructured.retrieve_documents question 3 w = (Ok docs, w1) ∧
    index0 (chat_choices request) = Ok text ∧
    w' = mkWorld (store w1) (log w1 ++ [(ChatCompletionsCreate request, None)]).
Proof.
  unfold RagWithUnstructured.generate_rag_response. intros H. run_ok.
  match goal with H : chat_completions_create _ _ = _ |- _ =>
    apply chat_completions_create_ok in H as [-> ->] end.
  eexists _, _. split; [eassumption|]. split; [eassumption|]. done.
Qed.

End Generators.

(** C8. Each of the three generators sends one completion request whose
    model and temperature do not depend on its input and whose user message
    is a fixed template around a context block and the question, and returns
    the text of the first choice: [RAG.answer] (on a constructed [RAG]) and
    [generate_rag_response] name their model and pass no temperature,
    [MilvusDocChatbot.generate_answer] passes [gpt-3.5-turbo] and
    temperature 0.  The first three parts say what a run that returned has
    done.  The last three say that the generators do it: once the retrieval
    has returned (for [generate_answer], in every world) the generator sends
    that request, and it returns the first choice when the request is
    accepted and has a choice; a rejected request and a missing choice are
    its only failures. *)
Theorem generators_use_fixed_template {F : Type} `{!External F}
    `{!ZillizPipeline.SearchService} :
  (∀ (w0 w1 : World F) self question k flag (w : World F) r w',
     EvaluationWithRagas.__init__ w0 = (Ok self, w1) →
     EvaluationWithRagas.answer self question k flag w = (Ok r, w') →
     ∃ texts earlier,
       let request :=
         mkChatRequest "gpt-3.5-turbo" None
           [mkMessage "system"
              (EvaluationWithRagas.SYSTEM_PROMPT EvaluationWithRagas.default_attributes);
            mkMessage "user"
              (from_template EvaluationWithRagas.USER_PROMPT_head
                 EvaluationWithRagas.USER_PROMPT_middle
                 EvaluationWithRagas.USER_PROMPT_tail (join nl texts) question)] in
       log w' = (log w ++ earlier ++ [(ChatCompletionsCreate request, None)])%list ∧
       Forall (λ entry, ∀ other, entry.1 ≠ ChatCompletionsCreate other) earlier ∧
       index0 (chat_choices request) = Ok (EvaluationWithRagas.answer_text r)) ∧
  (∀ question (w : World F) text w',
     RagWithUnstructured.generate_rag_response question w = (Ok text, w') →
     ∃ (docs : list (string * F)) earlier,
       let request :=
         mkChatRequest "gpt-4o-mini" None
           [mkMessage "system" RagWithUnstructured.system_prompt;
            mkMessage "user"
              (from_template RagWithUnstructured.user_prompt_head
                 RagWithUnstructured.user_prompt_middle
                 RagWithUnstructured.user_prompt_tail
                 (RagWithUnstructured.context_of docs) question)] in
       log w' = (log w ++ earlier ++ [(ChatCompletionsCreate request, None)])%list ∧
       Forall (λ entry, ∀ other, entry.1 ≠ ChatCompletionsCreate other) earlier ∧
       index0 (chat_choices request) = Ok text) ∧
  (∀ query context_str (w : World F) text w',
     ZillizPipeline.generate_answer query context_str w = (Ok text, w') →
     let request :=
       mkChatRequest "gpt-3.5-turbo" (Some 0)
         [mkMessage "user"
            (from_template ZillizPipeline.answer_prompt_head
               ZillizPipeline.answer_prompt_middle EmptyString
               (ZillizPipeline.str_fragments context_str) query)] in
     log w' = (log w ++ [(ChatCompletionsCreate request, None)])%list ∧
     index0 (chat_choices request) = Ok text) ∧
  (∀ (w0 w1 : World F) self question k flag (w : World F) texts w2,
     EvaluationWithRagas.__init__ w0 = (Ok self, w1) →
     EvaluationWithRagas.retrieve self question k w = (Ok texts, w2) →
     let request :=
       mkChatRequest "gpt-3.5-turbo" None
         [mkMessage "system"
            (EvaluationWithRagas.SYSTEM_PROMPT EvaluationWithRagas.default_attributes);
          mkMessage "user"
            (from_template EvaluationWithRagas.USER_PROMPT_head
               EvaluationWithRagas.USER_PROMPT_middle
               EvaluationWithRagas.USER_PROMPT_tail (join nl texts) question)] in
     let verdict := fault (store w2) (ChatCompletionsCreate request) in
     EvaluationWithRagas.answer self question k flag w
     = (match verdict with
        | Some e => Raise e
        | None =>
            rmap (λ text, if flag then EvaluationWithRagas.AnswerWithTexts text texts
                          else EvaluationWithRagas.AnswerText text)
              (index0 (chat_choices request))
        end,
        mkWorld (store w2) (log w2 ++ [(ChatCompletionsCreate request, verdict)]))) ∧
  (∀ question (w : World F) (docs : list (string * F)) w1,
     RagWithUnstructured.retrieve_documents question 3 w = (Ok docs, w1) →
     let request :=
       mkChatRequest "gpt-4o-mini" None
         [mkMessage "system" RagWithUnstructured.system_prompt;
          mkMessage "user"
            (from_template RagWithUnstructured.user_prompt_head
               RagWithUnstructured.user_prompt_middle
               RagWithUnstructured.user_prompt_tail
               (RagWithUnstructured.context_of docs) question)] in
     let verdict := fault (store w1) (ChatCompletionsCreate request) in
     RagWithUnstructured.generate_rag_response question w
     = (match verdict with
        | Some e => Raise e
        | None => index0 (chat_choices request)
        end,
        mkWorld (store w1) (log w1 ++ [(ChatCompletionsCreate request, verdict)]))) ∧
  (∀ query context_str (w : World F),
     let request :=
       mkChatRequest "gpt-3.5-turbo" (Some 0)
         [mkMessage "user"
            (from_template ZillizPipeline.answer_prompt_head
               ZillizPipeline.answer_prompt_middle EmptyString
               (ZillizPipeline.str_fragments context_str) query)] in
     let verdict := fault (store w) (ChatCompletionsCreate request) in
     ZillizPipeline.generate_answer query context_str w
     = (match verdict with
        | Some e => Raise e
        | None => index0 (chat_choices request)
        end,
        mkWorld (store w) (log w ++ [(ChatCompletionsCreate request, verdict)]))).
Proof.
  split; [|split; [|split; [|split; [|split]]]].
  - intros w0 w1 self question k flag w r w' Hinit Hrun.
    apply init_attributes in Hinit as ->.
    apply answer_ok in Hrun as (texts & w2 & user_prompt & a & Hr & Hf & Ha & -> & ->).
    rewrite format_USER_PROMPT in Hf. injection Hf as <-.
    apply retrieve_ok in Hr as (v & c & hits & all & _ & _ & _ & _ & _ & ->).
    eexists texts, [_; _]. simpl. split; [by rewrite <- app_assoc|].
    split; [|by destruct flag].
    repeat constructor; simpl; done.
  - intros question w text w' Hrun.
    apply generate_rag_response_ok in Hrun as (docs & w1 & Hr & Ha & ->).
    rewrite user_prompt_template in Ha.
    apply retrieve_documents_ok in Hr as (v & c & hits & _ & _ & _ & _ & ->).
    eexists docs, [_; _]. simpl. split; [|split; [|exact Ha]].
    + rewrite <- app_assoc. simpl. by rewrite user_prompt_template.
    + repeat constructor; simpl; done.
  - intros query context_str w text w' Hrun.
    unfold ZillizPipeline.generate_answer in Hrun. run_ok.
    match goal with H : chat_completions_create _ _ = _ |- _ =>
      apply chat_completions_create_ok in H as [-> ->] end.
    assert (ZillizPipeline.answer_prompt query context_str
            = from_template ZillizPipeline.answer_prompt_head
                ZillizPipeline.answer_prompt_middle EmptyString
                (ZillizPipeline.str_fragments context_str) query) as <-.
    { set (ctx := ZillizPipeline.str_fragments context_str).
      unfold ZillizPipeline.answer_prompt, from_template. fold ctx. clearbody ctx.
      rewrite append_empty. vm_compute. reflexivity. }
    done.
  - intros w0 w1 self question k flag w texts w2 Hinit Hretrieve request verdict.
    apply init_attributes in Hinit as ->.
    unfold EvaluationWithRagas.answer, bind. rewrite Hretrieve.
    unfold lift at 1. rewrite format_USER_PROMPT.
    unfold chat_completions_create, external, bind, ret, lift.
    change (EvaluationWithRagas.llm_model EvaluationWithRagas.default_attributes)
      with "gpt-3.5-turbo".
    subst verdict request. cbn [store log].
    destruct (fault _ _) as [e|]; [done|].
    destruct (index0 _) as [text|e]; [|done].
    by destruct flag.
  - intros question w docs w1 Hretrieve request verdict.
    unfold RagWithUnstructured.generate_rag_response, bind. rewrite Hretrieve.
    unfold chat_completions_create, external, bind, ret, lift.
    rewrite user_prompt_template. subst verdict request. cbn [store log].
    destruct (fault _ _) as [e|]; [done|].
    by destruct (index0 _).
  - intros query context_str w request verdict.
    assert (ZillizPipeline.answer_prompt query context_str
            = from_template ZillizPipeline.answer_prompt_head
                ZillizPipeline.answer_prompt_middle EmptyString
                (ZillizPipeline.str_fragments context_str) query) as Hprompt.
    { set (ctx := ZillizPipeline.str_fragments context_str).
      unfold ZillizPipeline.answer_prompt, from_template. fold ctx. clearbody ctx.
      rewrite append_empty. vm_compute. reflexivity. }
    unfold ZillizPipeline.generate_answer, chat_completions_create, external,
      bind, ret, lift.
    rewrite Hprompt. subst verdict request. cbn [store log].
    destruct (fault _ _) as [e|]; [done|].
    by destruct (index0 _).
Qed.

Lemma generators_use_fixed_template_witness :
  (∃ r w' texts earlier,
     @EvaluationWithRagas.answer Z Demo.online EvaluationWithRagas.default_attributes
       "which?" 2 true Demo.loaded_world = (Ok r, w') ∧
     log w' =
       (earlier ++
        [(ChatCompletionsCreate
            (mkChatRequest "gpt-3.5-turbo" None
               [mkMessage "system"
                  (EvaluationWithRagas.SYSTEM_PROMPT
                     EvaluationWithRagas.default_attributes);
                mkMessage "user"
                  (from_template EvaluationWithRagas.USER_PROMPT_head
                     EvaluationWithRagas.USER_PROMPT_middle
                     EvaluationWithRagas.USER_PROMPT_tail (join nl texts) "which?")]),
          None)])%list) ∧
  (∃ w',
     @ZillizPipeline.generate_answer Demo.two_versions Z Demo.online "which?" []
       Demo.empty_world = (Ok "answer from gpt-3.5-turbo", w') ∧
     log w' =
       [(ChatCompletionsCreate
           (mkChatRequest "gpt-3.5-turbo" (Some 0)
              [mkMessage "user"
                 (from_template ZillizPipeline.answer_prompt_head
                    ZillizPipeline.answer_prompt_middle EmptyString
                    (@ZillizPipeline.str_fragments Demo.two_versions []) "which?")]),
         None)]) ∧
  (∃ docs w1 w',
     @RagWithUnstructured.retrieve_documents Z Demo.online "which?" 3
       Demo.loaded_world = (Ok docs, w1) ∧
     @RagWithUnstructured.generate_rag_response Z Demo.online "which?"
       Demo.loaded_world = (Ok "answer from gpt-4o-mini", w') ∧
     log w' =
       (log w1 ++
        [(ChatCompletionsCreate
            (mkChatRequest "gpt-4o-mini" None
               [mkMessage "system" RagWithUnstructured.system_prompt;
                mkMessage "user"
                  (from_template RagWithUnstructured.user_prompt_head
                     RagWithUnstructured.user_prompt_middle
                     RagWithUnstructured.user_prompt_tail
                     (RagWithUnstructured.context_of docs) "which?")]),
          None)])%list) ∧
  (∃ texts w',
     @EvaluationWithRagas.answer Z Demo.online EvaluationWithRagas.default_attributes
       "which?" 2 true Demo.loaded_world
     = (Ok (EvaluationWithRagas.AnswerWithTexts "answer from gpt-3.5-turbo" texts),
        w')) ∧
  (∃ w',
     @ZillizPipeline.generate_answer Demo.two_versions Z Demo.no_choices "which?" []
       Demo.empty_world = (Raise (IndexError "list index out of range"), w')).
Proof.
  destruct (@generators_use_fixed_template Z Demo.online Demo.two_versions)
    as (Hrag & Hgen & Hbot & Hrag_runs & Hgen_runs & _).
  destruct (@generators_use_fixed_template Z Demo.no_choices Demo.two_versions)
    as (_ & _ & _ & _ & _ & Hbot_runs).
  eassert (@EvaluationWithRagas.__init__ Z Demo.online Demo.used_world = (Ok _, _))
    as Hinit by (vm_compute; reflexivity).
  split; [|split; [|split; [|split]]].
  - eassert (@EvaluationWithRagas.answer Z Demo.online
               EvaluationWithRagas.default_attributes "which?" 2 true
               Demo.loaded_world = (Ok _, _))
      as Hanswer by (vm_compute; reflexivity).
    destruct (Hrag _ _ _ _ _ _ _ _ _ Hinit Hanswer) as (texts & earlier & Hlog & _).
    eexists _, _, texts, earlier. split; [exact Hanswer | exact Hlog].
  - eassert (@ZillizPipeline.generate_answer Demo.two_versions Z Demo.online
               "which?" [] Demo.empty_world = (Ok _, _))
      as Hanswer by (vm_compute; reflexivity).
    destruct (Hbot _ _ _ _ _ Hanswer) as [Hlog _].
    eexists. split; [exact Hanswer | exact Hlog].
  - eassert (@RagWithUnstructured.retrieve_documents Z Demo.online "which?" 3
               Demo.loaded_world = (Ok _, _))
      as Hretrieve by (vm_compute; reflexivity).
    pose proof (Hgen_runs _ _ _ _ Hretrieve) as Hruns.
    eexists _, _, _. split; [exact Hretrieve|]. split; [exact Hruns | reflexivity].
  - eassert (@EvaluationWithRagas.retrieve Z Demo.online
               EvaluationWithRagas.default_attributes "which?" 2
               Demo.loaded_world = (Ok _, _))
      as Hretrieve by (vm_compute; reflexivity).
    pose proof (Hrag_runs _ _ _ "which?" 2 true _ _ _ Hinit Hretrieve) as Hruns.
    eexists _, _. exact Hruns.
  - eexists. exact (Hbot_runs "which?" [] Demo.empty_world).
Defined.

(** ** Failures: what is let through *)

Section Propagation.
Context {F : Type} `{!External F}.

Lemma propagates_silent {A} (m : M F A) :
  (∀ w r w', m w = (r, w') → log w' = log w) → propagates m.
Proof.
  intros Hsilent w r w' H. exists []. split.
  - rewrite app_nil_r. by eapply Hsilent.
  - intros i c e Hi. done.
Qed.

Lemma propagates_ret {A} (a : A) : propagates (F:=F) (ret a).
Proof. apply propagates_silent. by intros w r w' [= _ <-]. Qed.

Lemma propagates_raise {A} (e : PyExc) : propagates (F:=F) (A:=A) (raise e).
Proof. apply propagates_silent. by intros w r w' [= _ <-]. Qed.

Lemma propagates_lift {A} (r : Result A) : propagates (F:=F) (lift r).
Proof. apply propagates_silent. by intros w r' w' [= _ <-]. Qed.

Lemma propagates_read_store : propagates (F:=F) read_store.
Proof. apply propagates_silent. by intros w r w' [= _ <-]. Qed.

Lemma propagates_update_store f : propagates (F:=F) (update_store f).
Proof. apply propagates_silent. by intros w r w' [= _ <-]. Qed.

Lemma propagates_external (c : Call F) : propagates (external c).
Proof.
  intros w r w' H. exists [(c, fault (store w) c)].
  unfold external in H. split.
  - by destruct (fault (store w) c); injection H as _ <-.
  - intros [|i] c' e Hi; [|done].
    injection Hi as -> Hverdict. rewrite Hverdict in H.
    by injection H as <- _.
Qed.

Lemma propagates_bind {A B} (m : M F A) (k : A → M F B) :
  propagates m → (∀ a, propagates (k a)) → propagates (bind m k).
Proof.
  intros Hm Hk w r w' H. unfold bind in H.
  destruct (m w) as [[a|e1] w1] eqn:Hmw.
  - destruct (Hm _ _ _ Hmw) as (entries1 & Hlog1 & Hlast1).
    destruct (Hk a _ _ _ H) as (entries2 & Hlog2 & Hlast2).
    exists (entries1 ++ entries2). split.
    + by rewrite Hlog2, Hlog1, app_assoc.
    + intros i c e Hi. apply lookup_app_Some in Hi as [Hi|[Hge Hi]].
      * by destruct (Hlast1 _ _ _ Hi).
      * destruct (Hlast2 _ _ _ Hi) as [-> Hlen]. split; [done|].
        rewrite length_app. lia.
  - injection H as <- <-.
    destruct (Hm _ _ _ Hmw) as (entries & Hlog & Hlast).
    exists entries. split; [done|].
    intros i c e Hi. destruct (Hlast _ _ _ Hi) as [[= ->] Hlen]. done.
Qed.

End Propagation.

Section PropagationOfTheNotebooks.
Context {F : Type} `{!External F} `{!ZillizPipeline.SearchService}.
Import EvaluationWithRagas.

Lemma propagates_embeddings_create input model :
  propagates (embeddings_create input model).
Proof.
  unfold embeddings_create.
  apply propagates_bind; [apply propagates_external | intros _; apply propagates_ret].
Qed.

Lemma propagates_chat request : propagates (chat_completions_create request).
Proof.
  unfold chat_completions_create.
  apply propagates_bind; [apply propagates_external | intros _; apply propagates_ret].
Qed.

Lemma propagates_has_collection name : propagates (has_collection name).
Proof.
  unfold has_collection.
  apply propagates_bind; [apply propagates_external | intros _].
  apply propagates_bind; [apply propagates_read_store | intros s; apply propagates_ret].
Qed.

Lemma propagates_drop_collection name : propagates (drop_collection name).
Proof.
  unfold drop_collection.
  apply propagates_bind;
    [apply propagates_external | intros _; apply propagates_update_store].
Qed.

Lemma propagates_create_collection name dim metric consistency :
  propagates (create_collection name dim metric consistency).
Proof.
  unfold create_collection.
  apply propagates_bind;
    [apply propagates_external | intros _; apply propagates_update_store].
Qed.

Lemma propagates_search name data limit metric fields :
  propagates (search name data limit metric fields).
Proof.
  unfold search.
  apply propagates_bind; [apply propagates_external | intros _].
  apply propagates_bind; [apply propagates_read_store | intros s].
  destruct (s !! name); [apply propagates_ret | apply propagates_raise].
Qed.

Lemma propagates_insert_rows name data : propagates (insert_rows name data).
Proof.
  unfold insert_rows.
  apply propagates_bind; [apply propagates_external | intros _].
  apply propagates_bind; [apply propagates_read_store | intros s].
  destruct (s !! name); [apply propagates_update_store | apply propagates_raise].
Qed.

Lemma propagates__emb_text self text : propagates (_emb_text self text).
Proof.
  unfold _emb_text.
  apply propagates_bind; [apply propagates_embeddings_create | intros data].
  apply propagates_bind; [apply propagates_lift | intros v; apply propagates_ret].
Qed.

Lemma propagates___init__ : propagates __init__.
Proof.
  unfold __init__, _prepare_milvus.
  apply propagates_bind; [apply propagates_has_collection | intros exists_already].
  apply propagates_bind.
  { destruct exists_already; [apply propagates_drop_collection | apply propagates_ret]. }
  intros _. apply propagates_bind; [apply propagates__emb_text | intros probe].
  apply propagates_bind;
    [apply propagates_create_collection | intros _; apply propagates_ret].
Qed.

Lemma propagates_load_loop self pairs data : propagates (load_loop self pairs data).
Proof.
  revert data. induction pairs as [|[i line] rest IH]; intros data; simpl.
  - apply propagates_ret.
  - apply propagates_bind; [apply propagates__emb_text | intros v; apply IH].
Qed.

Lemma propagates_load self texts : propagates (load self texts).
Proof.
  unfold load. apply propagates_bind;
    [apply propagates_load_loop | intros; apply propagates_insert_rows].
Qed.

Lemma propagates_retrieve self question top_k :
  propagates (retrieve self question top_k).
Proof.
  unfold retrieve.
  apply propagates_bind; [apply propagates__emb_text | intros v].
  apply propagates_bind; [apply propagates_search | intros res].
  apply propagates_bind; [apply propagates_lift | intros hits].
  apply propagates_bind; [apply propagates_lift | intros texts; apply propagates_ret].
Qed.

Lemma propagates_answer self question k flag :
  propagates (answer self question k flag).
Proof.
  unfold answer.
  apply propagates_bind; [apply propagates_retrieve | intros texts].
  apply propagates_bind; [apply propagates_lift | intros user_prompt].
  apply propagates_bind; [apply propagates_chat | intros response].
  apply propagates_bind; [apply propagates_lift | intros choice].
  destruct (negb flag); apply propagates_ret.
Qed.

Lemma propagates_retrieve_documents question top_k :
  propagates (RagWithUnstructured.retrieve_documents question top_k).
Proof.
  unfold RagWithUnstructured.retrieve_documents, RagWithUnstructured.emb_text.
  apply propagates_bind.
  { apply propagates_bind; [apply propagates_embeddings_create | intros data].
    apply propagates_bind; [apply propagates_lift | intros v; apply propagates_ret]. }
  intros v. apply propagates_bind; [apply propagates_search | intros res].
  apply propagates_bind; [apply propagates_lift | intros hits; apply propagates_lift].
Qed.

Lemma propagates_generate_rag_response question :
  propagates (RagWithUnstructured.generate_rag_response question).
Proof.
  unfold RagWithUnstructured.generate_rag_response.
  apply propagates_bind; [apply propagates_retrieve_documents | intros docs].
  apply propagates_bind; [apply propagates_chat | intros response].
  apply propagates_bind; [apply propagates_lift | intros choice; apply propagates_ret].
Qed.

Lemma propagates_generate_answer query context_str :
  propagates (ZillizPipeline.generate_answer query context_str).
Proof.
  unfold ZillizPipeline.generate_answer.
  apply propagates_bind; [apply propagates_chat | intros response].
  apply propagates_bind; [apply propagates_lift | intros choice; apply propagates_ret].
Qed.

Lemma propagates_chat_with_rag query milvus_version :
  propagates (ZillizPipeline.chat_with_rag query milvus_version).
Proof.
  unfold ZillizPipeline.chat_with_rag.
  apply propagates_bind; [apply propagates_lift | intros context_str].
  apply propagates_bind;
    [apply propagates_generate_answer | intros completion; apply propagates_ret].
Qed.

End PropagationOfTheNotebooks.

(** ** [load_processed_files]: the one handler *)

Section ProcessedFiles.
Context {E : Type} `{!RagWithUnstructured.Files E}.
Import RagWithUnstructured.

(** When no [.json] file fails with anything but [IOError], the loop
    returns the elements of the files it could read and has printed one line
    per file it could not. *)
Lemma load_loop_skips_unreadable d names elements printed :
  (∀ n e, n ∈ names → endswith n ".json" = true →
          elements_from_json (path_join d n) = Raise e → ∃ msg, e = IOError msg) →
  load_loop d names elements printed =
    (Ok (elements ++
         flat_map (λ n, match elements_from_json (path_join d n) with
                        | Ok more => more
                        | Raise _ => []
                        end)
           (List.filter (λ n, endswith n ".json") names)),
     printed ++
     flat_map (λ n, match elements_from_json (path_join d n) with
                    | Ok _ => []
                    | Raise _ => ["Error: Could not read file " +:+ n +:+ "."]
                    end)
       (List.filter (λ n, endswith n ".json") names)).
Proof.
  revert elements printed.
  induction names as [|n rest IH]; intros elements printed Hio; simpl.
  - by rewrite !app_nil_r.
  - assert (∀ n' e, n' ∈ rest → endswith n' ".json" = true →
                    elements_from_json (path_join d n') = Raise e →
                    ∃ msg, e = IOError msg) as Hrest.
    { intros n' e Hin. apply Hio. by apply list_elem_of_further. }
    destruct (endswith n ".json") eqn:Hjson; [|by apply IH].
    simpl. destruct (elements_from_json (path_join d n)) as [more|e] eqn:Hread.
    + rewrite IH by done. by rewrite <- !app_assoc.
    + destruct (Hio n e) as [msg ->]; [apply list_elem_of_here | done | done |].
      rewrite IH by done. simpl. by rewrite <- !app_assoc.
Qed.

(** The first [.json] file that fails with another exception ends the
    loop with that exception. *)
Lemma load_loop_raises d before name after e elements printed :
  (∀ n e', n ∈ before → endswith n ".json" = true →
           elements_from_json (path_join d n) = Raise e' → ∃ msg, e' = IOError msg) →
  endswith name ".json" = true →
  elements_from_json (path_join d name) = Raise e →
  (∀ msg, e ≠ IOError msg) →
  (load_loop d (before ++ name :: after) elements printed).1 = Raise e.
Proof.
  intros Hio Hjson Hread Hother. revert elements printed.
  induction before as [|n rest IH]; intros elements printed; simpl.
  - rewrite Hjson, Hread. destruct e; try done. by destruct (Hother detail).
  - assert (∀ n' e', n' ∈ rest → endswith n' ".json" = true →
                     elements_from_json (path_join d n') = Raise e' →
                     ∃ msg, e' = IOError msg) as Hrest.
    { intros n' e' Hin. apply Hio. by apply list_elem_of_further. }
    destruct (endswith n ".json") eqn:Hn; [|by apply IH].
    destruct (elements_from_json (path_join d n)) as [more|e'] eqn:Hn_read;
      [by apply IH|].
    destruct (Hio n e') as [msg ->]; [apply list_elem_of_here | done | done |].
    by apply IH.
Qed.

End ProcessedFiles.

(** C7, as the code has it.  A call the OpenAI or Milvus client rejects is
    the last call a notebook function makes and its exception is the
    function's outcome, unchanged; a failure of the search pipeline, of
    [os.listdir] or of reading a [.json] file with anything but [IOError]
    ends the function the same way.  The exception is [load_processed_files]:
    it catches the [IOError] of a [.json] file it cannot read, prints
    ["Error: Could not read file <name>."] and goes on with the next file. *)
Theorem failures_propagate_except_unreadable_files {F : Type} `{!External F}
    `{!ZillizPipeline.SearchService} {E : Type} `{!RagWithUnstructured.Files E} :
  (propagates (F:=F) EvaluationWithRagas.__init__ ∧
   ∀ self texts question k flag context_str version,
     propagates (F:=F) (EvaluationWithRagas.load self texts) ∧
     propagates (F:=F) (EvaluationWithRagas.retrieve self question k) ∧
     propagates (F:=F) (EvaluationWithRagas.answer self question k flag) ∧
     propagates (F:=F) (RagWithUnstructured.retrieve_documents question k) ∧
     propagates (F:=F) (RagWithUnstructured.generate_rag_response question) ∧
     propagates (F:=F) (ZillizPipeline.generate_answer question context_str) ∧
     propagates (F:=F) (ZillizPipeline.chat_with_rag question version)) ∧
  (∀ question version e (w : World F),
     ZillizPipeline.retrieve question version = Raise e →
     ZillizPipeline.chat_with_rag question version w = (Raise e, w)) ∧
  (∀ d e, RagWithUnstructured.os_listdir d = Raise e →
          RagWithUnstructured.load_processed_files (E:=E) d = (Raise e, [])) ∧
  (∀ d before name after e,
     RagWithUnstructured.os_listdir d = Ok (before ++ name :: after) →
     (∀ n e', n ∈ before → endswith n ".json" = true →
              RagWithUnstructured.elements_from_json (E:=E) (path_join d n) = Raise e' →
              ∃ msg, e' = IOError msg) →
     endswith name ".json" = true →
     RagWithUnstructured.elements_from_json (E:=E) (path_join d name) = Raise e →
     (∀ msg, e ≠ IOError msg) →
     (RagWithUnstructured.load_processed_files (E:=E) d).1 = Raise e) ∧
  (∀ d names,
     RagWithUnstructured.os_listdir d = Ok names →
     (∀ n e, n ∈ names → endswith n ".json" = true →
             RagWithUnstructured.elements_from_json (E:=E) (path_join d n) = Raise e →
             ∃ msg, e = IOError msg) →
     RagWithUnstructured.load_processed_files (E:=E) d =
       (Ok (flat_map
              (λ n, match RagWithUnstructured.elements_from_json (path_join d n) with
                    | Ok more => more
                    | Raise _ => []
                    end)
              (List.filter (λ n, endswith n ".json") names)),
        flat_map
          (λ n, match RagWithUnstructured.elements_from_json (E:=E) (path_join d n) with
                | Ok _ => []
                | Raise _ => ["Error: Could not read file " +:+ n +:+ "."]
                end)
          (List.filter (λ n, endswith n ".json") names))).
Proof.
  split; [|split; [|split; [|split]]].
  - split; [apply propagates___init__|].
    intros self texts question k flag context_str version.
    repeat split.
    + apply propagates_load.
    + apply propagates_retrieve.
    + apply propagates_answer.
    + apply propagates_retrieve_documents.
    + apply propagates_generate_rag_response.
    + apply propagates_generate_answer.
    + apply propagates_chat_with_rag.
  - intros question version e w Hfail.
    unfold ZillizPipeline.chat_with_rag, bind, lift. by rewrite Hfail.
  - intros d e Hdir. unfold RagWithUnstructured.load_processed_files.
    by rewrite Hdir.
  - intros d before name after e Hdir Hio Hjson Hread Hother.
    unfold RagWithUnstructured.load_processed_files. rewrite Hdir.
    by apply load_loop_raises.
  - intros d names Hdir Hio.
    unfold RagWithUnstructured.load_processed_files. rewrite Hdir.
    by rewrite load_loop_skips_unreadable.
Qed.

Lemma failures_propagate_except_unreadable_files_witness :
  (∃ w' entries,
     @EvaluationWithRagas.answer Z Demo.no_completions
       EvaluationWithRagas.default_attributes "which?" 2 false Demo.loaded_world
       = (Raise (OpenAIError "api_key must be set"), w') ∧
     log w' = entries ∧
     ∀ i c e, entries !! i = Some (c, Some e) →
              e = OpenAIError "api_key must be set" ∧ Datatypes.S i = length entries) ∧
  (@RagWithUnstructured.load_processed_files Z Demo.results_dir "bad").1
    = Raise (ValueError "Expecting value") ∧
  @RagWithUnstructured.load_processed_files Z Demo.results_dir "out"
    = (Ok [1; 2; 3], ["Error: Could not read file b.json."]).
Proof.
  destruct (@failures_propagate_except_unreadable_files Z Demo.no_completions
              Demo.two_versions Z Demo.results_dir)
    as ((_ & Hglue) & _ & _ & Hraise & Hskip).
  split; [|split].
  - destruct (Hglue EvaluationWithRagas.default_attributes [] "which?" 2 false [] "2.2")
      as (_ & _ & Hanswer & _).
    eassert (@EvaluationWithRagas.answer Z Demo.no_completions
               EvaluationWithRagas.default_attributes "which?" 2 false
               Demo.loaded_world = (Raise _, _)) as Hrun by (vm_compute; reflexivity).
    destruct (Hanswer _ _ _ Hrun) as (entries & Hlog & Hlast).
    eexists _, entries. split; [exact Hrun|]. split; [exact Hlog|].
    intros i c e Hi. destruct (Hlast i c e Hi) as [[= <-] Hlen]. done.
  - apply (Hraise "bad" [] "x.json" ["y.json"]); try reflexivity; try done.
    intros n e' Hin. by apply elem_of_nil in Hin.
  - rewrite (Hskip "out" ["a.json"; "notes.txt"; "b.json"; "c.json"]);
      [reflexivity | reflexivity |].
    intros n e Hin _ Hread.
    repeat (apply elem_of_cons in Hin as [->|Hin]);
      try (vm_compute in Hread; (discriminate Hread || (injection Hread as <-; eauto))).
    by apply elem_of_nil in Hin.
Defined.

(** C7 as stated fails: reading [out/b.json] raises [IOError], and
    [load_processed_files] returns all the same, with the elements of the
    other files and a printed line: the exception was caught and the cell
    went on. *)
Lemma load_processed_files_catches_IOError :
  @RagWithUnstructured.elements_from_json Z Demo.results_dir (path_join "out" "b.json")
    = Raise (IOError "Permission denied") ∧
  @RagWithUnstructured.load_processed_files Z Demo.results_dir "out"
    = (Ok [1; 2; 3], ["Error: Could not read file b.json."]).
Proof. split; reflexivity. Qed.

(** ** [RAG.load] *)

Section Load.
Context {F : Type} `{!External F}.
Import EvaluationWithRagas.

Lemma enumerate_from_ids {A} (i : Z) (xs : list A) :
  map fst (enumerate_from i xs) = map (λ j, i + Z.of_nat j) (seq 0 (length xs)).
Proof.
  revert i. induction xs as [|x rest IH]; intros i; simpl; [done|].
  f_equal; [lia|]. rewrite IH, <- seq_shift, map_map.
  apply map_ext. intros j. lia.
Qed.

Lemma enumerate_from_values {A} (i : Z) (xs : list A) :
  map snd (enumerate_from i xs) = xs.
Proof. revert i. induction xs as [|x rest IH]; intros i; simpl; [done|]. by rewrite IH. Qed.

(** The loop leaves the collections alone and, when it returns, has added
    one row per pair, with the pair's number, the embedding of its line and
    the line. *)
Lemma load_loop_ok self pairs data w data' w' :
  load_loop self pairs data w = (Ok data', w') →
  ∃ new,
    data' = data ++ new ∧
    Forall2 (λ (p : Z * string) row,
               ∃ v, index0 (embeddings_data p.2 (embedding_model self)) = Ok v ∧
                    row = mkRow p.1 v p.2) pairs new ∧
    store w' = store w.
Proof.
  revert data w. induction pairs as [|[i line] rest IH]; intros data w H; simpl in H.
  - run_ok. exists []. by rewrite app_nil_r.
  - run_ok.
    match goal with H : _emb_text _ _ _ = _ |- _ =>
      apply _emb_text_ok in H as [Hv ->] end.
    match goal with H : load_loop _ _ _ _ = _ |- _ =>
      apply IH in H as (new & -> & Hnew & Hstore) end.
    eexists (_ :: new). split; [by rewrite <- app_assoc|].
    split; [|done]. constructor; [|done]. eauto.
Qed.

Lemma _emb_text_raise self text w e w' :
  _emb_text self text w = (Raise e, w') →
  store w' = store w ∧
  ((∃ c, last (log w') = Some (c, Some e)) ∨
   index0 (embeddings_data text (embedding_model self)) = Raise e).
Proof.
  unfold _emb_text, embeddings_create. intros H. run_all.
  - split; [done|]. left. rewrite last_snoc. eauto.
  - split; [done|]. by right.
Qed.

Lemma load_loop_raise self pairs data w e w' :
  load_loop self pairs data w = (Raise e, w') →
  store w' = store w ∧
  ((∃ c, last (log w') = Some (c, Some e)) ∨
   ∃ p, p ∈ pairs ∧ index0 (embeddings_data p.2 (embedding_model self)) = Raise e).
Proof.
  revert data w. induction pairs as [|[i line] rest IH]; intros data w H; simpl in H.
  - discriminate H.
  - apply bind_raise in H as [H | (v & w1 & Hv & H)].
    + apply _emb_text_raise in H as [Hstore [Hcall | Hindex]]; [by eauto|].
      split; [done|]. right. exists (i, line). split; [apply list_elem_of_here | done].
    + apply _emb_text_ok in Hv as [_ ->].
      apply IH in H as [Hstore [Hcall | (p & Hp & Hindex)]]; [by eauto|].
      split; [done|]. right. exists p. split; [by apply list_elem_of_further | done].
Qed.

(** The rows the loop builds are a function of the pairs. *)
Lemma loaded_rows_unique self pairs (new1 new2 : list (Row F)) :
  Forall2 (λ (p : Z * string) row,
             ∃ v, index0 (embeddings_data p.2 (embedding_model self)) = Ok v ∧
                  row = mkRow p.1 v p.2) pairs new1 →
  Forall2 (λ (p : Z * string) row,
             ∃ v, index0 (embeddings_data p.2 (embedding_model self)) = Ok v ∧
                  row = mkRow p.1 v p.2) pairs new2 →
  new1 = new2.
Proof.
  intros H1. revert new2. induction H1 as [|p row1 rest new1 Hrow1 _ IH];
    intros new2 H2; inversion H2 as [|? row2 ? new2' Hrow2 Hrest]; subst; [done|].
  destruct Hrow1 as (v1 & Hv1 & ->), Hrow2 as (v2 & Hv2 & ->).
  rewrite Hv1 in Hv2. injection Hv2 as <-. f_equal. by apply IH.
Qed.

End Load.

(** C6, as the code has it.  [RAG.load] numbers its rows from 0 on every
    call and checks nothing itself, so no conflict comes from the notebook.
    After a load of [texts] that returned, the collection holds the rows it
    held under other keys and, under the keys [0 .. n-1], one row per text.
    A second load of the same texts sends the same rows with the same keys;
    whatever the server's verdict, the collections are afterwards exactly
    as the first load left them: an accepted insert puts each row in the
    place of the stored row with its key, so that no chunk is stored twice
    and no error is raised, and a rejected call is the outcome of the
    load. *)
Theorem second_load_replaces_unless_rejected {F : Type} `{!External F}
    (self : EvaluationWithRagas.RAG) (texts : list string) (w w1 : World F) :
  let name := EvaluationWithRagas.collection_name self in
  EvaluationWithRagas.load self texts w = (Ok tt, w1) →
  ∃ c c1 data,
    store w !! name = Some c ∧
    store w1 !! name = Some c1 ∧
    map row_id data = map Z.of_nat (seq 0 (length texts)) ∧
    map row_text data = texts ∧
    List.filter (has_key (map row_id data)) (rows c1) = data ∧
    List.filter (other_key (map row_id data)) (rows c1)
      = List.filter (other_key (map row_id data)) (rows c) ∧
    ∀ r w2,
      EvaluationWithRagas.load self texts w1 = (r, w2) →
      store w2 = store w1 ∧
      match r with
      | Ok _ => last (log w2) = Some (Insert name data, None)
      | Raise e => ∃ call, last (log w2) = Some (call, Some e)
      end.
Proof.
  intros name Hfirst. unfold EvaluationWithRagas.load in Hfirst.
  apply bind_ok in Hfirst as (data & w0 & Hloop & Hinsert).
  apply load_loop_ok in Hloop as (new & -> & Hnew & Hstore0). simpl in *.
  apply insert_rows_ok in Hinsert as (c & Hc & ->). rewrite Hstore0 in Hc.
  fold name in Hc |- *.
  assert (map row_id new = map Z.of_nat (seq 0 (length texts))) as Hids.
  { transitivity (map fst (enumerate texts)).
    - clear -Hnew. induction Hnew as [|p row ps rs (v & _ & ->) _ IH]; simpl;
        [done | by rewrite IH].
    - unfold enumerate. rewrite enumerate_from_ids. apply map_ext. intros j. lia. }
  pose proof (numbered_keys_distinct _ _ Hids) as Hdistinct.
  eexists c, _, new. split; [done|].
  split; [simpl; apply lookup_insert_eq|]. simpl.
  split; [done|]. split; [|split; [|split]].
  - transitivity (map snd (enumerate texts)).
    + clear -Hnew. induction Hnew as [|p row ps rs (v & _ & ->) _ IH]; simpl;
        [done | by rewrite IH].
    + apply enumerate_from_values.
  - by apply put_rows_new.
  - by apply put_rows_old.
  - intros r w2 Hsecond. unfold EvaluationWithRagas.load in Hsecond.
    set (c1 := mkCollection _ _ _ (put_rows (rows c) new)) in *.
    set (w1 := mkWorld _ _) in *.
    assert (store w1 !! name = Some c1) as Hc1 by apply lookup_insert_eq.
    destruct r as [u|e].
    + apply bind_ok in Hsecond as (data2 & w3 & Hloop2 & Hinsert2).
      apply load_loop_ok in Hloop2 as (new2 & -> & Hnew2 & Hstore3). simpl in *.
      rewrite (loaded_rows_unique _ _ _ _ Hnew2 Hnew) in *.
      apply insert_rows_ok in Hinsert2 as (c1' & Hc1' & ->).
      fold name in Hc1'. rewrite Hstore3, Hc1 in Hc1'. injection Hc1' as <-.
      simpl. split; [|by rewrite last_snoc].
      rewrite Hstore3, put_rows_again by done. apply insert_insert_eq.
    + apply bind_raise in Hsecond as [Hloop2 | (data2 & w3 & Hloop2 & Hinsert2)].
      * apply load_loop_raise in Hloop2 as [Hstore [Hcall | (p & Hp & Hindex)]];
          [done|].
        exfalso. clear -Hnew Hp Hindex.
        induction Hnew as [|p' row ps rs (v & Hv & _) _ IH].
        -- by apply elem_of_nil in Hp.
        -- apply elem_of_cons in Hp as [->|Hp]; [congruence | by apply IH].
      * apply load_loop_ok in Hloop2 as (new2 & -> & _ & Hstore3).
        unfold insert_rows in Hinsert2. fold name in Hinsert2. run_all.
        -- split; [done|]. rewrite last_snoc. eauto.
        -- rewrite Hstore3, Hc1 in *. run_all.
Qed.

Lemma second_load_replaces_unless_rejected_witness :
  ∃ data w1 w2,
    @EvaluationWithRagas.load Z Demo.online EvaluationWithRagas.default_attributes
      ["x"; "yy"] Demo.loaded_world = (Ok tt, w1) ∧
    @EvaluationWithRagas.load Z Demo.online EvaluationWithRagas.default_attributes
      ["x"; "yy"] w1 = (Ok tt, w2) ∧
    map row_id data = [0; 1] ∧
    map row_text data = ["x"; "yy"] ∧
    store w2 = store w1 ∧
    last (log w2) = Some (Insert "rag_collection" data, None).
Proof.
  eassert (@EvaluationWithRagas.load Z Demo.online
             EvaluationWithRagas.default_attributes ["x"; "yy"] Demo.loaded_world
           = (Ok tt, _)) as Hfirst by (vm_compute; reflexivity).
  destruct (@second_load_replaces_unless_rejected Z Demo.online _ _ _ _ Hfirst)
    as (c & c1 & data & _ & _ & Hids & Htexts & _ & _ & Hsecond).
  match type of Hfirst with _ = (_, ?w1) =>
    eassert (@EvaluationWithRagas.load Z Demo.online
               EvaluationWithRagas.default_attributes ["x"; "yy"] w1
             = (Ok tt, _)) as Hagain by (vm_compute; reflexivity)
  end.
  destruct (Hsecond _ _ Hagain) as [Hstore Hlast].
  eexists data, _, _. split; [exact Hfirst|]. split; [exact Hagain|].
  split; [exact Hids|]. split; [exact Htexts|]. split; [exact Hstore | exact Hlast].
Defined.

(** C6 as stated fails: loading the same two texts twice into a fresh [RAG]
    returns twice, no call of the second load is rejected, so no conflict is
    produced; the collection then holds the two rows, each once. *)
Lemma second_load_raises_no_conflict :
  ∃ self w0 w1 w2,
    @EvaluationWithRagas.__init__ Z Demo.online Demo.empty_world = (Ok self, w0) ∧
    @EvaluationWithRagas.load Z Demo.online self ["x"; "yy"] w0 = (Ok tt, w1) ∧
    @EvaluationWithRagas.load Z Demo.online self ["x"; "yy"] w1 = (Ok tt, w2) ∧
    Forall (λ entry, entry.2 = None) (log w2) ∧
    rows <$> store w2 !! "rag_collection"
      = Some [mkRow 0 [1; 1] "x"; mkRow 1 [2; 1] "yy"].
Proof.
  eexists _, _, _, _.
  split; [vm_compute; reflexivity|].
  split; [vm_compute; reflexivity|].
  split; [vm_compute; reflexivity|].
  split; [|vm_compute; reflexivity].
  vm_compute. repeat constructor.
Qed.

(** ** The order of the results *)

Lemma Sorted_Forall2 {A B} (R : relation A) (S : relation B) (T : A → B → Prop)
    (xs : list A) (ys : list B) :
  (∀ x1 x2 y1 y2, T x1 y1 → T x2 y2 → R x1 x2 → S y1 y2) →
  Forall2 T xs ys → Sorted R xs → Sorted S ys.
Proof.
  intros Hrel Hxy. induction Hxy as [|x y xs ys Hhead Htail IH]; intros Hsorted.
  - constructor.
  - apply Sorted_inv in Hsorted as [Hsorted Hhd]. constructor; [by apply IH|].
    destruct Htail as [|x' y' xs ys Hhead' _]; constructor.
    apply HdRel_inv in Hhd. by eapply Hrel.
Qed.

(** C5, as the code has it.  [retrieve_documents] returns the
    (text, distance) pair of each hit of the search, in the order of the
    hits: its pairs are in decreasing order of score whenever the hits are.
    [RAG.retrieve] returns texts only, those of the first [top_k] hits in
    the order of the hits, without a score. *)
Theorem retrieval_keeps_hit_order {F : Type} `{!External F} (better : relation F)
    (self : EvaluationWithRagas.RAG) (question : string) (top_k : Z) (w : World F) :
  (∀ docs w',
     RagWithUnstructured.retrieve_documents question top_k w = (Ok docs, w') →
     ∃ v c hits,
       index0 (embeddings_data question "text-embedding-3-small") = Ok v ∧
       store w !! RagWithUnstructured.collection_name = Some c ∧
       index0 (search_hits c [v] top_k None ["text"]) = Ok hits ∧
       map snd docs = map hit_distance hits ∧
       Forall2 (λ h d, dict_get (hit_entity h) "text" = Ok d.1) hits docs ∧
       (Sorted (λ h1 h2, better (hit_distance h1) (hit_distance h2)) hits →
        Sorted (λ d1 d2, better d1.2 d2.2) docs)) ∧
  (0 ≤ top_k →
   ∀ texts w',
     EvaluationWithRagas.retrieve self question top_k w = (Ok texts, w') →
     ∃ v c hits all_texts,
       index0 (embeddings_data question (EvaluationWithRagas.embedding_model self))
         = Ok v ∧
       store w !! EvaluationWithRagas.collection_name self = Some c ∧
       index0 (search_hits c [v] top_k (Some "IP") ["text"]) = Ok hits ∧
       Forall2 (λ h t, dict_get (hit_entity h) "text" = Ok t) hits all_texts ∧
       texts = take (Z.to_nat top_k) all_texts).
Proof.
  split.
  - intros docs w' H.
    apply retrieve_documents_ok in H as (v & c & hits & Hv & Hc & Hhits & Hdocs & _).
    exists v, c, hits. repeat split; try done.
    + clear -Hdocs. induction Hdocs as [|h d hs ds [_ Hd] _ IH]; simpl;
        [done | by rewrite Hd, IH].
    + eapply Forall2_impl; [exact Hdocs|]. by intros h d [Htext _].
    + intros Hsorted. eapply Sorted_Forall2; [|exact Hdocs|exact Hsorted].
      simpl. intros h1 h2 d1 d2 [_ ->] [_ ->]. done.
  - intros Hk texts w' H.
    apply retrieve_ok in H as (v & c & hits & all_texts & Hv & Hc & Hhits & Hall & -> & _).
    exists v, c, hits, all_texts. repeat split; try done.
    by apply slice_to_prefix.
Qed.

Lemma retrieval_keeps_hit_order_witness :
  (∃ docs w',
     @RagWithUnstructured.retrieve_documents Z Demo.online "which?" 3 Demo.loaded_world
       = (Ok docs, w') ∧
     Sorted (λ d1 d2 : string * Z, Z.ge d1.2 d2.2) docs) ∧
  (∃ all_texts w',
     @EvaluationWithRagas.retrieve Z Demo.online EvaluationWithRagas.default_attributes
       "which?" 2 Demo.loaded_world = (Ok (take (Z.to_nat 2) all_texts), w')).
Proof.
  destruct (@retrieval_keeps_hit_order Z Demo.online Z.ge
              EvaluationWithRagas.default_attributes "which?" 3 Demo.loaded_world)
    as [Hdocs _].
  destruct (@retrieval_keeps_hit_order Z Demo.online Z.ge
              EvaluationWithRagas.default_attributes "which?" 2 Demo.loaded_world)
    as [_ Htexts].
  split.
  - eassert (@RagWithUnstructured.retrieve_documents Z Demo.online "which?" 3
               Demo.loaded_world = (Ok _, _)) as Hrun by (vm_compute; reflexivity).
    destruct (Hdocs _ _ Hrun) as (v & c & hits & Hv & Hc & Hhits & _ & _ & Hsorted).
    eexists _, _. split; [exact Hrun|]. apply Hsorted.
    vm_compute in Hv. injection Hv as <-.
    vm_compute in Hc. injection Hc as <-.
    vm_compute in Hhits. injection Hhits as <-.
    repeat constructor; simpl; lia.
  - eassert (@EvaluationWithRagas.retrieve Z Demo.online
               EvaluationWithRagas.default_attributes "which?" 2
               Demo.loaded_world = (Ok _, _)) as Hrun by (vm_compute; reflexivity).
    destruct (Htexts ltac:(lia) _ _ Hrun) as (v & c & hits & all_texts & _ & _ & _ & _ & Hcut).
    eexists all_texts, _. rewrite <- Hcut. exact Hrun.
Defined.

(** C5 as stated fails for [RAG.retrieve]: its result is a list of texts
    and carries no score.  Two services that score the same hits
    differently, as [retrieve_documents] shows, give the same result. *)
Lemma retrieve_returns_texts_without_scores :
  (@RagWithUnstructured.retrieve_documents Z Demo.online "which?" 2
     Demo.loaded_world).1 = Ok [("alpha", 0); ("beta", -1)] ∧
  (@RagWithUnstructured.retrieve_documents Z Demo.rescored "which?" 2
     Demo.loaded_world).1 = Ok [("alpha", 100); ("beta", 99)] ∧
  (@EvaluationWithRagas.retrieve Z Demo.online EvaluationWithRagas.default_attributes
     "which?" 2 Demo.loaded_world).1 = Ok ["one"; "two"] ∧
  (@EvaluationWithRagas.retrieve Z Demo.rescored EvaluationWithRagas.default_attributes
     "which?" 2 Demo.loaded_world).1 = Ok ["one"; "two"].
Proof. repeat split; vm_compute; reflexivity. Qed.

(** ** The filtered search *)

Section FilteredSearch.
Context `{!ZillizPipeline.SearchService}.
Import ZillizPipeline.

Lemma output_version (c : Chunk) (v : string) :
  tag c "version" = Some v →
  output ["version"] c = Ok [("chunk_text", chunk_text c); ("version", v)].
Proof.
  unfold tag, output. simpl.
  destruct (dict_get (tags c) "version") as [v'|e]; [|done].
  by intros [= ->].
Qed.

(** With an equality filter on ["version"], the search returns, and every
    fragment it returns is the text of a chunk of the collection tagged with
    that version, together with the version. *)
Lemma run_version_filter question top_k expr v :
  parse_equality expr = Some ("version", v) →
  ∃ frags,
    run question top_k ["version"] (Some expr) = Ok frags ∧
    ∀ frag, frag ∈ frags →
      ∃ c, c ∈ nearest question ∧ tag c "version" = Some v ∧
           frag = [("chunk_text", chunk_text c); ("version", v)].
Proof.
  intros Hparse. unfold run. rewrite Hparse. simpl.
  set (chunks := take _ _).
  assert (Forall (λ c, c ∈ nearest question ∧ tag c "version" = Some v) chunks)
    as Hchunks.
  { apply Forall_forall. intros c Hc. subst chunks.
    apply subseteq_take, list_elem_of_In, filter_In in Hc as [Hin Hsat].
    split; [by apply list_elem_of_In|].
    unfold satisfies in Hsat. by apply bool_decide_eq_true in Hsat. }
  exists (map (λ c, [("chunk_text", chunk_text c); ("version", v)]) chunks).
  split.
  - apply comprehension_total. eapply Forall_impl; [exact Hchunks|].
    intros c [_ Htag]. by apply output_version.
  - intros frag Hfrag. apply list_elem_of_fmap in Hfrag as (c & -> & Hc).
    rewrite Forall_forall in Hchunks. destruct (Hchunks c Hc) as [Hin Htag].
    by exists c.
Qed.

End FilteredSearch.

(** C2.  A search run with the filter [version == "2.2"] returns only
    fragments of chunks tagged ["2.2"], each showing ["2.2"] as its
    [version], and likewise for ["2.3"]; no fragment shows another version.
    The same holds for [MilvusDocChatbot.retrieve], which builds that filter
    from its [milvus_version] argument. *)
Theorem version_filter_returns_only_that_version `{!ZillizPipeline.SearchService}
    (question : string) (top_k : Z) (v : string) :
  v = "2.2" ∨ v = "2.3" →
  let only_v (frags : list ZillizPipeline.Fragment) :=
    ∀ frag, frag ∈ frags →
      dict_get frag "version" = Ok v ∧
      (∀ other, other ≠ v → dict_get frag "version" ≠ Ok other) ∧
      ∃ c, c ∈ ZillizPipeline.nearest question ∧
           ZillizPipeline.tag c "version" = Some v ∧
           dict_get frag "chunk_text" = Ok (ZillizPipeline.chunk_text c) in
  (∃ frags,
     ZillizPipeline.run question top_k ["version"]
       (Some ("version == " +:+ dquote +:+ v +:+ dquote)) = Ok frags ∧
     only_v frags) ∧
  (∃ frags, ZillizPipeline.retrieve question v = Ok frags ∧ only_v frags).
Proof.
  intros Hv only_v.
  assert (ZillizPipeline.parse_equality ("version == " +:+ dquote +:+ v +:+ dquote)
          = Some ("version", v)) as Hparse.
  { by destruct Hv as [-> | ->]. }
  assert (∀ k, ∃ frags,
            ZillizPipeline.run question k ["version"]
              (Some ("version == " +:+ dquote +:+ v +:+ dquote)) = Ok frags ∧
            only_v frags) as Hrun.
  { intros k.
    destruct (run_version_filter question k _ v Hparse)
      as (frags & Hrun & Hfrags).
    exists frags. split; [done|]. intros frag Hfrag.
    destruct (Hfrags frag Hfrag) as (c & Hin & Htag & ->). simpl.
    split; [done|]. split; [congruence|]. by exists c. }
  split; [apply Hrun | apply (Hrun 2)].
Qed.

Lemma version_filter_returns_only_that_version_witness :
  @ZillizPipeline.retrieve Demo.two_versions "Can user delete entities?" "2.2"
    = Ok [[("chunk_text", "delete by key"); ("version", "2.2")];
          [("chunk_text", "prepare expression, 2.2"); ("version", "2.2")]] ∧
  ∀ frag,
    frag ∈ [[("chunk_text", "delete by key"); ("version", "2.2")];
            [("chunk_text", "prepare expression, 2.2"); ("version", "2.2")]] →
    dict_get frag "version" = Ok "2.2".
Proof.
  destruct (@version_filter_returns_only_that_version Demo.two_versions
              "Can user delete entities?" 2 "2.2" (or_introl eq_refl))
    as [_ (frags & Hretrieve & Honly)].
  vm_compute in Hretrieve. injection Hretrieve as <-.
  split; [reflexivity|]. intros frag Hfrag. by destruct (Honly frag Hfrag).
Defined.

(** ** The hybrid retriever *)

Section Deduplication.
Import HybridAndRerank.

(** Deduplication keeps each document not seen before once. *)
Lemma remove_duplicates_from_spec (seen docs : list Document) :
  NoDup (remove_duplicates_from seen docs) ∧
  ∀ d, d ∈ remove_duplicates_from seen docs ↔ d ∈ docs ∧ d ∉ seen.
Proof.
  revert seen. induction docs as [|doc rest IH]; intros seen; simpl.
  - split; [constructor|]. intros d. split; [|by intros [? _]].
    intros Hd. by apply elem_of_nil in Hd.
  - destruct (decide (doc ∈ seen)) as [Hseen|Hnew].
    + destruct (IH seen) as [Hnodup Hmem]. split; [done|].
      intros d. rewrite Hmem, elem_of_cons.
      destruct (decide (d = doc)) as [->|Hne]; intuition congruence.
    + destruct (IH (doc :: seen)) as [Hnodup Hmem]. split.
      * constructor; [|done]. rewrite Hmem, not_elem_of_cons. by intros [_ [? _]].
      * intros d. rewrite !elem_of_cons, Hmem, not_elem_of_cons.
        destruct (decide (d = doc)) as [->|Hne]; intuition congruence.
Qed.

Lemma filter_unseen_cons (doc : Document) (seen rest : list Document) :
  doc ∉ rest →
  filter (λ d, d ∉ doc :: seen) rest = filter (λ d, d ∉ seen) rest.
Proof.
  induction rest as [|d rest IH]; intros Hfresh; [done|].
  apply not_elem_of_cons in Hfresh as [Hne Hfresh].
  destruct (decide (d ∈ seen)) as [Hseen|Hnew].
  - rewrite !filter_cons_False; [by apply IH | by intros Hn |].
    rewrite not_elem_of_cons. by intros [_ Hn].
  - rewrite !filter_cons_True; [by rewrite IH | done |].
    rewrite not_elem_of_cons. split; [congruence | done].
Qed.

(** On a list without repetition it is a filter. *)
Lemma remove_duplicates_from_NoDup (seen docs : list Document) :
  NoDup docs → remove_duplicates_from seen docs = filter (λ d, d ∉ seen) docs.
Proof.
  intros Hnodup. revert seen.
  induction Hnodup as [|doc rest Hfresh _ IH]; intros seen; simpl; [done|].
  destruct (decide (doc ∈ seen)) as [Hseen|Hnew].
  - rewrite filter_cons_False by (intros Hn; by apply Hn). apply IH.
  - rewrite filter_cons_True by done. f_equal. rewrite IH.
    by apply filter_unseen_cons.
Qed.

(** The second list is deduplicated against what the first one brought. *)
Lemma remove_duplicates_from_app (seen a b : list Document) :
  remove_duplicates_from seen (a ++ b) =
    remove_duplicates_from seen a ++
    remove_duplicates_from (reverse (remove_duplicates_from seen a) ++ seen) b.
Proof.
  revert seen. induction a as [|doc rest IH]; intros seen; simpl; [done|].
  destruct (decide (doc ∈ seen)) as [Hseen|Hnew]; [apply IH|].
  simpl. f_equal. rewrite IH. f_equal. f_equal.
  by rewrite reverse_cons, <- app_assoc.
Qed.

Lemma unique_documents_NoDup (dense sparse : list Document) :
  NoDup dense → NoDup sparse →
  unique_documents dense sparse = dense ++ filter (λ d, d ∉ dense) sparse.
Proof.
  intros Hdense Hsparse. unfold unique_documents, _remove_duplicates.
  rewrite remove_duplicates_from_app.
  rewrite (remove_duplicates_from_NoDup [] dense Hdense).
  rewrite (remove_duplicates_from_NoDup _ sparse Hsparse).
  assert (filter (λ d, d ∉ []) dense = dense) as ->.
  { clear. induction dense as [|d rest IH]; [done|].
    rewrite filter_cons_True by apply not_elem_of_nil. by rewrite IH. }
  f_equal. apply list_filter_iff. intros d.
  by rewrite app_nil_r, elem_of_reverse.
Qed.

End Deduplication.

(** C3.  The candidates the hybrid retriever hands to the reranker are the
    deduplicated union of the two result lists: no document twice, and a
    document is a candidate exactly when one of the retrievers returned it.
    When neither list repeats a document, the candidates are as many as the
    two lists together less the documents both returned; four and four
    results sharing two give six candidates. *)
Theorem candidates_are_deduplicated_union {S : Type} `{!HybridAndRerank.Retrieval S}
    (query : string) (dense sparse : list HybridAndRerank.Document) :
  let candidates := HybridAndRerank.unique_documents dense sparse in
  let shared := filter (λ d, d ∈ dense) sparse in
  HybridAndRerank.invoke 4 dense sparse query
    = HybridAndRerank.rerank 4 query candidates ∧
  HybridAndRerank.hybrid_and_rerank_retriever query
    = HybridAndRerank.rerank 4 query
        (HybridAndRerank.unique_documents (HybridAndRerank.milvus_retriever query)
           (HybridAndRerank.bm25_retriever query)) ∧
  NoDup candidates ∧
  (∀ d, d ∈ candidates ↔ d ∈ dense ∨ d ∈ sparse) ∧
  (NoDup dense → NoDup sparse →
   (length candidates + length shared = length dense + length sparse)%nat) ∧
  (NoDup dense → NoDup sparse →
   length dense = 4%nat → length sparse = 4%nat → length shared = 2%nat →
   length candidates = 6%nat).
Proof.
  intros candidates shared.
  assert (NoDup dense → NoDup sparse →
          (length candidates + length shared = length dense + length sparse)%nat)
    as Hcount.
  { intros Hdense Hsparse. subst candidates shared.
    rewrite unique_documents_NoDup by done. rewrite length_app.
    pose proof (filter_app_complement (λ d, d ∈ dense) sparse) as Hsplit.
    apply Permutation_length in Hsplit. rewrite length_app in Hsplit. lia. }
  split; [done|]. split; [done|].
  destruct (remove_duplicates_from_spec [] (dense ++ sparse)) as [Hnodup Hmem].
  split; [exact Hnodup|]. split; [|split; [exact Hcount|]].
  - intros d. subst candidates.
    unfold HybridAndRerank.unique_documents, HybridAndRerank._remove_duplicates.
    rewrite Hmem, elem_of_app. split; [by intros [? _]|].
    intros Hd. split; [done | apply not_elem_of_nil].
  - intros Hdense Hsparse H4 H4' H2. specialize (Hcount Hdense Hsparse). lia.
Qed.

Lemma candidates_are_deduplicated_union_witness :
  length (HybridAndRerank.unique_documents
            (@HybridAndRerank.milvus_retriever nat Demo.four_and_four "Which model use tools?")
            (@HybridAndRerank.bm25_retriever nat Demo.four_and_four "Which model use tools?"))
    = 6%nat.
Proof.
  destruct (@candidates_are_deduplicated_union nat Demo.four_and_four
              "Which model use tools?"
              (@HybridAndRerank.milvus_retriever nat Demo.four_and_four
                 "Which model use tools?")
              (@HybridAndRerank.bm25_retriever nat Demo.four_and_four
                 "Which model use tools?"))
    as (_ & _ & _ & _ & _ & Hsix).
  apply Hsix; try reflexivity.
  - apply (bool_decide_unpack _). vm_compute. exact I.
  - apply (bool_decide_unpack _). vm_compute. exact I.
Defined.

(** C4.  The reranker returns a permutation of its candidates cut to the
    requested number: what it returns is the start of a rearrangement of the
    candidates, so every returned document, and every returned text, is one
    of the candidates, and there are at most [top_k] of them, four in the
    notebook, each from one of the two retrievers.  It returns whenever the
    reranking service answers. *)
Theorem rerank_is_permutation_with_truncation {S : Type}
    `{!HybridAndRerank.Retrieval S} (top_k : nat) (query : string)
    (candidates : list HybridAndRerank.Document) :
  (∀ reranked,
     HybridAndRerank.rerank top_k query candidates = Ok reranked →
     (length reranked ≤ top_k)%nat ∧
     (∃ rest, candidates ≡ₚ reranked ++ rest) ∧
     (∀ d, d ∈ reranked → d ∈ candidates) ∧
     (∀ text, text ∈ map HybridAndRerank.page_content reranked →
              text ∈ map HybridAndRerank.page_content candidates)) ∧
  (HybridAndRerank.rerank_fault query candidates = None →
   ∃ reranked, HybridAndRerank.rerank top_k query candidates = Ok reranked) ∧
  (∀ reranked,
     HybridAndRerank.hybrid_and_rerank_retriever query = Ok reranked →
     (length reranked ≤ 4)%nat ∧
     ∀ d, d ∈ reranked →
          d ∈ HybridAndRerank.milvus_retriever query ∨
          d ∈ HybridAndRerank.bm25_retriever query).
Proof.
  assert (∀ k q cands reranked,
            HybridAndRerank.rerank k q cands = Ok reranked →
            (length reranked ≤ k)%nat ∧ ∃ rest, cands ≡ₚ reranked ++ rest)
    as Hcut.
  { intros k q cands reranked. unfold HybridAndRerank.rerank.
    destruct (HybridAndRerank.rerank_fault q cands); [done|].
    intros [= <-]. split; [rewrite length_take; lia|].
    exists (drop k (merge_sort (HybridAndRerank.more_relevant q) cands)).
    by rewrite take_drop, merge_sort_Permutation. }
  split; [|split].
  - intros reranked Hok. destruct (Hcut _ _ _ _ Hok) as [Hlen [rest Hperm]].
    split; [done|]. split; [by exists rest|].
    assert (∀ d, d ∈ reranked → d ∈ candidates) as Hsub.
    { intros d Hd. rewrite Hperm, elem_of_app. by left. }
    split; [done|].
    intros text Htext. apply list_elem_of_fmap in Htext as (d & -> & Hd).
    apply list_elem_of_fmap. exists d. split; [done | by apply Hsub].
  - intros Hup. unfold HybridAndRerank.rerank. rewrite Hup. eauto.
  - intros reranked Hok.
    unfold HybridAndRerank.hybrid_and_rerank_retriever, HybridAndRerank.invoke in Hok.
    destruct (Hcut _ _ _ _ Hok) as [Hlen [rest Hperm]]. split; [done|].
    intros d Hd.
    assert (d ∈ HybridAndRerank.unique_documents
                  (HybridAndRerank.milvus_retriever query)
                  (HybridAndRerank.bm25_retriever query)) as Hcand.
    { rewrite Hperm, elem_of_app. by left. }
    unfold HybridAndRerank.unique_documents, HybridAndRerank._remove_duplicates in Hcand.
    apply remove_duplicates_from_spec in Hcand as [Hcand _].
    by apply elem_of_app in Hcand.
Qed.

Lemma rerank_is_permutation_with_truncation_witness :
  @HybridAndRerank.hybrid_and_rerank_retriever nat Demo.four_and_four
    "Which model use tools?"
    = Ok [Demo.doc "ffffff"; Demo.doc "eeeee"; Demo.doc "dddd"; Demo.doc "ccc"] ∧
  (length [Demo.doc "ffffff"; Demo.doc "eeeee"; Demo.doc "dddd"; Demo.doc "ccc"]
   ≤ 4)%nat.
Proof.
  destruct (@rerank_is_permutation_with_truncation nat Demo.four_and_four 4
              "Which model use tools?" []) as (_ & _ & Hchain).
  assert (@HybridAndRerank.hybrid_and_rerank_retriever nat Demo.four_and_four
            "Which model use tools?"
          = Ok [Demo.doc "ffffff"; Demo.doc "eeeee"; Demo.doc "dddd"; Demo.doc "ccc"])
    as Hrun by (vm_compute; reflexivity).
  split; [exact Hrun|]. by destruct (Hchain _ Hrun).
Defined.

(** * Further properties of the notebooks' code *)

(** ** [RAG.__init__]: what it touches *)

(** X1. The constructor replaces the collection ["rag_collection"] by an empty
    one and leaves every other collection of the server as it is. *)
Theorem init_touches_only_its_collection {F : Type} `{!External F}
    (w : World F) self w' :
  EvaluationWithRagas.__init__ w = (Ok self, w') →
  ∃ probe,
    index0 (embeddings_data "foo" "text-embedding-3-small") = Ok probe ∧
    store w' = <["rag_collection" := mkCollection (length probe) "IP" "Strong" []]>
                 (store w) ∧
    ∀ name, name ≠ "rag_collection" → store w' !! name = store w !! name.
Proof.
  intros Hinit.
  unfold EvaluationWithRagas.__init__, EvaluationWithRagas._prepare_milvus in Hinit.
  run_ok.
  match goal with H : has_collection _ _ = _ |- _ =>
    apply has_collection_ok in H as [-> ->] end.
  match goal with H : EvaluationWithRagas._emb_text _ _ _ = _ |- _ =>
    apply _emb_text_ok in H as [Hprobe ->] end.
  simpl in *.
  match goal with
  | Hcreate : create_collection _ (length ?probe) _ _ _ = (_, ?wf) |- _ =>
      exists probe; split; [done|];
      assert (store wf = <["rag_collection" :=
                             mkCollection (length probe) "IP" "Strong" []]> (store w))
        as Hstore;
      [ destruct (bool_decide _) eqn:Hhas;
        [ match goal with H : drop_collection _ _ = _ |- _ =>
            apply drop_collection_ok in H as -> end;
          apply create_collection_ok in Hcreate as ->; [|apply lookup_delete_eq];
          simpl; apply insert_delete_eq
        | run_ok; apply bool_decide_eq_false in Hhas;
          apply create_collection_ok in Hcreate as ->;
          [done | by apply eq_None_not_Some] ]
      | split; [exact Hstore|];
        intros name Hname; rewrite Hstore; by apply lookup_insert_ne ]
  end.
Qed.

Lemma init_touches_only_its_collection_witness :
  ∃ self w',
    @EvaluationWithRagas.__init__ Z Demo.online Demo.loaded_world = (Ok self, w') ∧
    store w' !! "my_rag_collection" = store Demo.loaded_world !! "my_rag_collection" ∧
    rows <$> store w' !! "rag_collection" = Some [].
Proof.
  eassert (@EvaluationWithRagas.__init__ Z Demo.online Demo.loaded_world = (Ok _, _))
    as Hinit by (vm_compute; reflexivity).
  destruct (@init_touches_only_its_collection Z Demo.online _ _ _ Hinit)
    as (probe & _ & Hstore & Hothers).
  eexists _, _. split; [exact Hinit|]. split; [by apply Hothers|].
  rewrite Hstore, lookup_insert_eq. reflexivity.
Defined.

(** X2. A constructor that raises has changed nothing but, at most, dropped
    ["rag_collection"]: when the embedding probe fails after the drop, the
    rows the collection held are gone and no new collection is there. *)
Theorem failed_init_at_most_drops {F : Type} `{!External F} (w : World F) e w' :
  EvaluationWithRagas.__init__ w = (Raise e, w') →
  store w' = store w ∨
  (is_Some (store w !! "rag_collection") ∧
   store w' = delete "rag_collection" (store w)).
Proof.
  intros Hinit.
  unfold EvaluationWithRagas.__init__, EvaluationWithRagas._prepare_milvus,
    EvaluationWithRagas._emb_text, has_collection, create_collection,
    embeddings_create in Hinit.
  run_all; try (by left);
    destruct (bool_decide (is_Some (store w !! "rag_collection"))) eqn:Hhas;
    unfold drop_collection in *; run_all;
    try (by left);
    try (right; split; [by apply bool_decide_eq_true in Hhas | done]).
Qed.

Lemma failed_init_at_most_drops_witness :
  ∃ w',
    @EvaluationWithRagas.__init__ Z Demo.no_embeddings Demo.loaded_world
      = (Raise (OpenAIError "api_key must be set"), w') ∧
    is_Some (store Demo.loaded_world !! "rag_collection") ∧
    store w' !! "rag_collection" = None.
Proof.
  eassert (@EvaluationWithRagas.__init__ Z Demo.no_embeddings Demo.loaded_world
           = (Raise _, _)) as Hinit by (vm_compute; reflexivity).
  destruct (@failed_init_at_most_drops Z Demo.no_embeddings _ _ _ Hinit)
    as [Hsame | [Hwas Hdropped]].
  - exfalso. apply (f_equal (λ s, s !! "rag_collection")) in Hsame.
    vm_compute in Hsame. discriminate Hsame.
  - eexists. split; [exact Hinit|]. split; [exact Hwas|].
    rewrite Hdropped. apply lookup_delete_eq.
Defined.

(** ** [RAG.load]: what it stores and what it asks for *)

Section LoadEffects.
Context {F : Type} `{!External F}.
Import EvaluationWithRagas.

(** The loop asks for one embedding per pair, in the order of the pairs. *)
Lemma load_loop_log self pairs data w data' w' :
  load_loop self pairs data w = (Ok data', w') →
  log w' = log w ++ map (λ p : Z * string,
                           (EmbeddingsCreate p.2 (embedding_model self), None)) pairs.
Proof.
  revert data w. induction pairs as [|[i line] rest IH]; intros data w H; simpl in H.
  - run_ok. by rewrite app_nil_r.
  - run_ok.
    match goal with H : _emb_text _ _ _ = _ |- _ =>
      apply _emb_text_ok in H as [_ ->] end.
    match goal with H : load_loop _ _ _ _ = _ |- _ => apply IH in H as -> end.
    simpl. by rewrite <- app_assoc.
Qed.

(** The rows built for the texts carry the numbers [0 .. n-1] and the
    texts, in order. *)
Lemma loaded_rows_ids_texts self (texts : list string) (data : list (Row F)) :
  Forall2 (λ (p : Z * string) row,
             ∃ v, index0 (embeddings_data p.2 (embedding_model self)) = Ok v ∧
                  row = mkRow p.1 v p.2) (enumerate texts) data →
  map row_id data = map Z.of_nat (seq 0 (length texts)) ∧
  map row_text data = texts.
Proof.
  intros Hdata. split.
  - transitivity (map fst (enumerate texts)).
    + clear -Hdata. induction Hdata as [|p row ps rs (v & _ & ->) _ IH]; simpl;
        [done | by rewrite IH].
    + unfold enumerate. rewrite enumerate_from_ids. apply map_ext. intros j. lia.
  - transitivity (map snd (enumerate texts)); [|apply enumerate_from_values].
    clear -Hdata. induction Hdata as [|p row ps rs (v & _ & ->) _ IH]; simpl;
      [done | by rewrite IH].
Qed.

Lemma load_ok self texts w u w' :
  load self texts w = (Ok u, w') →
  ∃ c data,
    store w !! collection_name self = Some c ∧
    Forall2 (λ (p : Z * string) row,
               ∃ v, index0 (embeddings_data p.2 (embedding_model self)) = Ok v ∧
                    row = mkRow p.1 v p.2) (enumerate texts) data ∧
    w' = mkWorld
           (<[collection_name self :=
                mkCollection (dimension c) (metric_type c) (consistency_level c)
                  (put_rows (rows c) data)]> (store w))
           (log w ++ map (λ p : Z * string,
                            (EmbeddingsCreate p.2 (embedding_model self), None))
                      (enumerate texts)
                  ++ [(Insert (collection_name self) data, None)]).
Proof.
  unfold load. intros H.
  apply bind_ok in H as (data & w0 & Hloop & Hinsert).
  pose proof (load_loop_log _ _ _ _ _ _ Hloop) as Hlog.
  apply load_loop_ok in Hloop as (new & -> & Hnew & Hstore). simpl in *.
  apply insert_rows_ok in Hinsert as (c & Hc & ->). rewrite Hstore in Hc.
  exists c, new. split; [done|]. split; [done|].
  by rewrite Hstore, Hlog, <- app_assoc.
Qed.

End LoadEffects.

(** X3. A load that returns stores one row per text under the keys
    [0 .. n-1], each in the place of the row the collection held under that
    key, if any; the rows the collection held under other keys stay as they
    were.  The load keeps the dimension, the metric and the consistency
    level of the collection, and leaves every other collection as it is. *)
Theorem load_replaces_by_key_and_keeps_the_rest {F : Type} `{!External F}
    (self : EvaluationWithRagas.RAG) (texts : list string) (w : World F) u w' :
  let name := EvaluationWithRagas.collection_name self in
  EvaluationWithRagas.load self texts w = (Ok u, w') →
  ∃ c c' data,
    store w !! name = Some c ∧ store w' !! name = Some c' ∧
    dimension c' = dimension c ∧ metric_type c' = metric_type c ∧
    consistency_level c' = consistency_level c ∧
    map row_id data = map Z.of_nat (seq 0 (length texts)) ∧
    map row_text data = texts ∧
    List.filter (has_key (map row_id data)) (rows c') = data ∧
    List.filter (other_key (map row_id data)) (rows c')
      = List.filter (other_key (map row_id data)) (rows c) ∧
    ∀ other, other ≠ name → store w' !! other = store w !! other.
Proof.
  intros name Hload.
  apply load_ok in Hload as (c & data & Hc & Hdata & ->). fold name in Hc |- *.
  destruct (loaded_rows_ids_texts _ _ _ Hdata) as [Hids Htexts].
  pose proof (numbered_keys_distinct _ _ Hids) as Hdistinct.
  eexists c, _, data. simpl. split; [done|]. split; [apply lookup_insert_eq|]. simpl.
  repeat split; try done.
  - by apply put_rows_new.
  - by apply put_rows_old.
  - intros other Hother. by apply lookup_insert_ne.
Qed.

Lemma load_replaces_by_key_and_keeps_the_rest_witness :
  ∃ w' c c' data,
    @EvaluationWithRagas.load Z Demo.online EvaluationWithRagas.default_attributes
      ["x"; "yy"] Demo.loaded_world = (Ok tt, w') ∧
    store Demo.loaded_world !! "rag_collection" = Some c ∧
    store w' !! "rag_collection" = Some c' ∧
    map row_id data = [0; 1] ∧
    map row_text data = ["x"; "yy"] ∧
    List.filter (has_key [0; 1]) (rows c') = data ∧
    List.filter (other_key [0; 1]) (rows c') = List.filter (other_key [0; 1]) (rows c) ∧
    store w' !! "my_rag_collection" = store Demo.loaded_world !! "my_rag_collection".
Proof.
  eassert (@EvaluationWithRagas.load Z Demo.online
             EvaluationWithRagas.default_attributes ["x"; "yy"] Demo.loaded_world
           = (Ok tt, _)) as Hload by (vm_compute; reflexivity).
  destruct (@load_replaces_by_key_and_keeps_the_rest Z Demo.online _ _ _ _ _ Hload)
    as (c & c' & data & Hc & Hc' & _ & _ & _ & Hids & Htexts & Hnew & Hold & Hothers).
  change (map row_id data = [0; 1]) in Hids. rewrite Hids in Hnew, Hold.
  eexists _, c, c', data. split; [exact Hload|].
  split; [exact Hc|]. split; [exact Hc'|]. split; [exact Hids|].
  split; [exact Htexts|]. split; [exact Hnew|]. split; [exact Hold|].
  by apply Hothers.
Defined.



(** X5. A load that raises has stored nothing: the collections are as before,
    also when the embeddings were all computed and only the insert was
    refused. *)
Theorem failed_load_stores_nothing {F : Type} `{!External F}
    (self : EvaluationWithRagas.RAG) (texts : list string) (w : World F) e w' :
  EvaluationWithRagas.load self texts w = (Raise e, w') →
  store w' = store w.
Proof.
  unfold EvaluationWithRagas.load. intros Hload.
  apply bind_raise in Hload as [Hloop | (data & w0 & Hloop & Hinsert)].
  - by apply load_loop_raise in Hloop as [Hstore _].
  - apply load_loop_ok in Hloop as (new & -> & _ & Hstore).
    unfold insert_rows in Hinsert. run_all; [done|].
    destruct (store w0 !! EvaluationWithRagas.collection_name self); run_all.
    match goal with H : raise _ _ = _ |- _ => injection H as _ <- end. done.
Qed.

Lemma failed_load_stores_nothing_witness :
  ∃ w',
    @EvaluationWithRagas.load Z Demo.insert_refused
      EvaluationWithRagas.default_attributes ["x"; "yy"] Demo.loaded_world
      = (Raise (MilvusException "insert refused"), w') ∧
    store w' = store Demo.loaded_world.
Proof.
  eassert (@EvaluationWithRagas.load Z Demo.insert_refused
             EvaluationWithRagas.default_attributes ["x"; "yy"] Demo.loaded_world
           = (Raise _, _)) as Hload by (vm_compute; reflexivity).
  eexists. split; [exact Hload|].
  exact (@failed_load_stores_nothing Z Demo.insert_refused _ _ _ _ _ Hload).
Defined.

(** ** What retrieval and generation leave alone *)

Section ReadOnly.
Context {F : Type} `{!External F} `{!ZillizPipeline.SearchService}.
Import EvaluationWithRagas.

Lemma read_only_ret {A} (a : A) : read_only (F:=F) (ret a).
Proof. by intros w r w' [= _ <-]. Qed.

Lemma read_only_raise {A} (e : PyExc) : read_only (F:=F) (A:=A) (raise e).
Proof. by intros w r w' [= _ <-]. Qed.

Lemma read_only_lift {A} (r : Result A) : read_only (F:=F) (lift r).
Proof. by intros w r' w' [= _ <-]. Qed.

Lemma read_only_read_store : read_only (F:=F) read_store.
Proof. by intros w r w' [= _ <-]. Qed.

Lemma read_only_external (c : Call F) : read_only (external c).
Proof.
  intros w r w' Hrun. unfold external in Hrun.
  by destruct (fault (store w) c); injection Hrun as _ <-.
Qed.

Lemma read_only_bind {A B} (m : M F A) (k : A → M F B) :
  read_only m → (∀ a, read_only (k a)) → read_only (bind m k).
Proof.
  intros Hm Hk w r w' Hrun. unfold bind in Hrun.
  destruct (m w) as [[a|e] w1] eqn:Hmw.
  - rewrite (Hk a _ _ _ Hrun). by eapply Hm.
  - injection Hrun as _ <-. by eapply Hm.
Qed.

Lemma read_only_embeddings_create input model :
  read_only (embeddings_create input model).
Proof.
  unfold embeddings_create.
  apply read_only_bind; [apply read_only_external | intros _; apply read_only_ret].
Qed.

Lemma read_only_chat request : read_only (chat_completions_create request).
Proof.
  unfold chat_completions_create.
  apply read_only_bind; [apply read_only_external | intros _; apply read_only_ret].
Qed.

Lemma read_only_search name data limit metric fields :
  read_only (search name data limit metric fields).
Proof.
  unfold search.
  apply read_only_bind; [apply read_only_external | intros _].
  apply read_only_bind; [apply read_only_read_store | intros s].
  destruct (s !! name); [apply read_only_ret | apply read_only_raise].
Qed.

Lemma read_only__emb_text self text : read_only (_emb_text self text).
Proof.
  unfold _emb_text.
  apply read_only_bind; [apply read_only_embeddings_create | intros data].
  apply read_only_bind; [apply read_only_lift | intros v; apply read_only_ret].
Qed.

Lemma read_only_retrieve self question top_k :
  read_only (retrieve self question top_k).
Proof.
  unfold retrieve.
  apply read_only_bind; [apply read_only__emb_text | intros v].
  apply read_only_bind; [apply read_only_search | intros res].
  apply read_only_bind; [apply read_only_lift | intros hits].
  apply read_only_bind; [apply read_only_lift | intros texts; apply read_only_ret].
Qed.

Lemma read_only_answer self question k flag :
  read_only (answer self question k flag).
Proof.
  unfold answer.
  apply read_only_bind; [apply read_only_retrieve | intros texts].
  apply read_only_bind; [apply read_only_lift | intros user_prompt].
  apply read_only_bind; [apply read_only_chat | intros response].
  apply read_only_bind; [apply read_only_lift | intros choice].
  destruct (negb flag); apply read_only_ret.
Qed.

Lemma read_only_answer_loop self questions contexts_list answer_list :
  read_only (answer_loop self questions contexts_list answer_list).
Proof.
  revert contexts_list answer_list.
  induction questions as [|question rest IH]; intros contexts_list answer_list; simpl.
  - apply read_only_ret.
  - apply read_only_bind; [apply read_only_answer | intros r].
    apply read_only_bind; [apply read_only_lift | intros pair; apply IH].
Qed.

Lemma read_only_retrieve_documents question top_k :
  read_only (RagWithUnstructured.retrieve_documents question top_k).
Proof.
  unfold RagWithUnstructured.retrieve_documents, RagWithUnstructured.emb_text.
  apply read_only_bind.
  { apply read_only_bind; [apply read_only_embeddings_create | intros data].
    apply read_only_bind; [apply read_only_lift | intros v; apply read_only_ret]. }
  intros v. apply read_only_bind; [apply read_only_search | intros res].
  apply read_only_bind; [apply read_only_lift | intros hits; apply read_only_lift].
Qed.

Lemma read_only_generate_rag_response question :
  read_only (RagWithUnstructured.generate_rag_response question).
Proof.
  unfold RagWithUnstructured.generate_rag_response.
  apply read_only_bind; [apply read_only_retrieve_documents | intros docs].
  apply read_only_bind; [apply read_only_chat | intros response].
  apply read_only_bind; [apply read_only_lift | intros choice; apply read_only_ret].
Qed.

Lemma read_only_generate_answer query context_str :
  read_only (ZillizPipeline.generate_answer query context_str).
Proof.
  unfold ZillizPipeline.generate_answer.
  apply read_only_bind; [apply read_only_chat | intros response].
  apply read_only_bind; [apply read_only_lift | intros choice; apply read_only_ret].
Qed.

Lemma read_only_chat_with_rag query milvus_version :
  read_only (ZillizPipeline.chat_with_rag query milvus_version).
Proof.
  unfold ZillizPipeline.chat_with_rag.
  apply read_only_bind; [apply read_only_lift | intros context_str].
  apply read_only_bind;
    [apply read_only_generate_answer | intros completion; apply read_only_ret].
Qed.

End ReadOnly.

(** X6. Retrieval and generation never write: [RAG.retrieve], [RAG.answer], the
    loop that answers the question list, [retrieve_documents],
    [generate_rag_response], [generate_answer] and [chat_with_rag] leave
    every collection as it is, whether they return or raise. *)
Theorem retrieval_and_generation_are_read_only {F : Type} `{!External F}
    `{!ZillizPipeline.SearchService} :
  ∀ self question k flag questions context_str version,
    read_only (F:=F) (EvaluationWithRagas.retrieve self question k) ∧
    read_only (F:=F) (EvaluationWithRagas.answer self question k flag) ∧
    read_only (F:=F) (EvaluationWithRagas.answer_questions self questions) ∧
    read_only (F:=F) (RagWithUnstructured.retrieve_documents question k) ∧
    read_only (F:=F) (RagWithUnstructured.generate_rag_response question) ∧
    read_only (F:=F) (ZillizPipeline.generate_answer question context_str) ∧
    read_only (F:=F) (ZillizPipeline.chat_with_rag question version).
Proof.
  intros self question k flag questions context_str version. repeat split.
  - apply read_only_retrieve.
  - apply read_only_answer.
  - apply read_only_answer_loop.
  - apply read_only_retrieve_documents.
  - apply read_only_generate_rag_response.
  - apply read_only_generate_answer.
  - apply read_only_chat_with_rag.
Qed.

Lemma retrieval_and_generation_are_read_only_witness :
  ∃ r w',
    @EvaluationWithRagas.answer Z Demo.no_completions
      EvaluationWithRagas.default_attributes "which?" 2 true Demo.loaded_world
      = (r, w') ∧
    store w' = store Demo.loaded_world.
Proof.
  destruct (@retrieval_and_generation_are_read_only Z Demo.no_completions
              Demo.two_versions EvaluationWithRagas.default_attributes "which?" 2
              true [] [] "2.2") as (_ & Hanswer & _).
  eassert (@EvaluationWithRagas.answer Z Demo.no_completions
             EvaluationWithRagas.default_attributes "which?" 2 true Demo.loaded_world
           = (_, _)) as Hrun by (vm_compute; reflexivity).
  eexists _, _. split; [exact Hrun|]. exact (Hanswer _ _ _ Hrun).
Defined.

(** ** [RAG.answer]: its calls and its failures *)

(** X7. An answer that returns has made exactly three calls, in this order: the
    embedding of the question itself, one search of the object's collection
    for that vector with [limit] the requested number of texts, the inner
    product metric and the [text] output field, and one completion. *)
Theorem answer_call_sequence {F : Type} `{!External F}
    (self : EvaluationWithRagas.RAG) (question : string) (k : Z) (flag : bool)
    (w : World F) r w' :
  EvaluationWithRagas.answer self question k flag w = (Ok r, w') →
  ∃ v request,
    index0 (embeddings_data question (EvaluationWithRagas.embedding_model self))
      = Ok v ∧
    model request = EvaluationWithRagas.llm_model self ∧
    log w' = log w ++
      [(EmbeddingsCreate question (EvaluationWithRagas.embedding_model self), None);
       (Search (EvaluationWithRagas.collection_name self) [v] k (Some "IP") ["text"],
        None);
       (ChatCompletionsCreate request, None)].
Proof.
  intros Hanswer.
  apply answer_ok in Hanswer as (texts & w1 & user_prompt & a & Hr & _ & _ & _ & ->).
  apply retrieve_ok in Hr as (v & c & hits & all & Hv & _ & _ & _ & _ & ->).
  exists v, (mkChatRequest (EvaluationWithRagas.llm_model self) None
               [mkMessage "system" (EvaluationWithRagas.SYSTEM_PROMPT self);
                mkMessage "user" user_prompt]).
  split; [exact Hv|]. simpl. split; [reflexivity|].
  by rewrite <- app_assoc.
Qed.

Lemma answer_call_sequence_witness :
  ∃ r w' request,
    @EvaluationWithRagas.answer Z Demo.online EvaluationWithRagas.default_attributes
      "which?" 2 false Demo.loaded_world = (Ok r, w') ∧
    log w' =
      [(EmbeddingsCreate "which?" "text-embedding-3-small", None);
       (Search "rag_collection" [[6; 1]] 2 (Some "IP") ["text"], None);
       (ChatCompletionsCreate request, None)].
Proof.
  eassert (@EvaluationWithRagas.answer Z Demo.online
             EvaluationWithRagas.default_attributes "which?" 2 false
             Demo.loaded_world = (Ok _, _)) as Hrun by (vm_compute; reflexivity).
  destruct (@answer_call_sequence Z Demo.online _ _ _ _ _ _ _ Hrun)
    as (v & request & Hv & _ & Hlog).
  vm_compute in Hv. injection Hv as <-.
  eexists _, _, request. split; [exact Hrun | exact Hlog].
Defined.

(** X8. An answer of a constructed [RAG] fails in three ways only: the retrieval
    failed, and then the answer fails with it before any completion is asked
    for; the completion call was rejected; or the completion came back with
    no choice, which raises [IndexError].  Formatting the prompt never
    fails, whatever the retrieved texts and the question contain. *)
Theorem answer_failure_causes {F : Type} `{!External F} (w0 w1 : World F)
    (self : EvaluationWithRagas.RAG) (question : string) (k : Z) (flag : bool)
    (w : World F) e w' :
  EvaluationWithRagas.__init__ w0 = (Ok self, w1) →
  EvaluationWithRagas.answer self question k flag w = (Raise e, w') →
  EvaluationWithRagas.retrieve self question k w = (Raise e, w') ∨
  ∃ texts w2,
    EvaluationWithRagas.retrieve self question k w = (Ok texts, w2) ∧
    let request :=
      mkChatRequest "gpt-3.5-turbo" None
        [mkMessage "system"
           (EvaluationWithRagas.SYSTEM_PROMPT EvaluationWithRagas.default_attributes);
         mkMessage "user"
           (from_template EvaluationWithRagas.USER_PROMPT_head
              EvaluationWithRagas.USER_PROMPT_middle
              EvaluationWithRagas.USER_PROMPT_tail (join nl texts) question)] in
    (fault (store w2) (ChatCompletionsCreate request) = Some e ∧
     w' = mkWorld (store w2) (log w2 ++ [(ChatCompletionsCreate request, Some e)])) ∨
    (fault (store w2) (ChatCompletionsCreate request) = None ∧
     chat_choices request = [] ∧
     e = IndexError "list index out of range" ∧
     w' = mkWorld (store w2) (log w2 ++ [(ChatCompletionsCreate request, None)])).
Proof.
  intros Hinit Hanswer. apply init_attributes in Hinit as ->.
  unfold EvaluationWithRagas.answer in Hanswer.
  apply bind_raise in Hanswer as [Hr | (texts & w2 & Hr & Hanswer)]; [by left|].
  right. exists texts, w2. split; [exact Hr|].
  rewrite format_USER_PROMPT in Hanswer.
  apply bind_raise in Hanswer as [Hf | (user_prompt & w3 & Hf & Hanswer)];
    [discriminate Hf|].
  apply lift_ok in Hf as [[= <-] ->].
  apply bind_raise in Hanswer as [Hc | (choices & w4 & Hc & Hanswer)].
  - left. unfold chat_completions_create in Hc. run_all. done.
  - right. pose proof Hc as Hc'. unfold chat_completions_create in Hc'.
    apply bind_ok in Hc' as (u & w5 & Hext & _). apply external_ok in Hext as [Hfault _].
    apply chat_completions_create_ok in Hc as [-> ->].
    apply bind_raise in Hanswer as [Hi | (choice & w6 & _ & Hanswer)].
    + apply lift_raise in Hi as [Hi ->].
      destruct (chat_choices _) eqn:Hchoices; [|discriminate Hi].
      injection Hi as <-. done.
    + by destruct (negb flag).
Qed.

Lemma answer_failure_causes_witness :
  ∃ w',
    @EvaluationWithRagas.answer Z Demo.no_choices EvaluationWithRagas.default_attributes
      "which?" 2 false Demo.loaded_world
      = (Raise (IndexError "list index out of range"), w') ∧
    ∃ call, last (log w') = Some (call, None).
Proof.
  eassert (@EvaluationWithRagas.__init__ Z Demo.no_choices Demo.used_world = (Ok _, _))
    as Hinit by (vm_compute; reflexivity).
  eassert (@EvaluationWithRagas.answer Z Demo.no_choices
             EvaluationWithRagas.default_attributes "which?" 2 false
             Demo.loaded_world = (Raise _, _)) as Hrun by (vm_compute; reflexivity).
  destruct (@answer_failure_causes Z Demo.no_choices _ _ _ _ _ _ _ _ _ Hinit Hrun)
    as [Hr | (texts & w2 & _ & [[Hfault _] | (_ & _ & _ & Hw')])].
  - vm_compute in Hr. discriminate Hr.
  - discriminate Hfault.
  - eexists. split; [exact Hrun|]. rewrite Hw'. simpl. rewrite last_snoc. eauto.
Defined.

(** ** The loop that answers the question list *)

Section QuestionLoop.
Context {F : Type} `{!External F}.
Import EvaluationWithRagas.

Lemma answer_loop_ok self questions contexts_list answer_list w result w' :
  answer_loop self questions contexts_list answer_list w = (Ok result, w') →
  ∃ contexts answers,
    result = (contexts_list ++ contexts, answer_list ++ answers) ∧
    length contexts = length questions ∧
    length answers = length questions ∧
    Forall (λ texts, (length texts ≤ 3)%nat) contexts.
Proof.
  revert contexts_list answer_list w.
  induction questions as [|question rest IH]; intros contexts_list answer_list w Hloop;
    simpl in Hloop.
  - run_ok. exists [], []. by rewrite !app_nil_r.
  - apply bind_ok in Hloop as (r & w1 & Hanswer & Hloop).
    apply bind_ok in Hloop as (pair & w2 & Hpair & Hloop).
    apply lift_ok in Hpair as [Hpair ->].
    apply answer_ok in Hanswer as (texts & w3 & _ & a & Hr & _ & _ & -> & _).
    injection Hpair as <-. simpl in Hloop.
    apply IH in Hloop as (contexts & answers & -> & Hc & Ha & Hbound).
    exists (texts :: contexts), (a :: answers).
    rewrite <- !app_assoc. simpl. rewrite Hc, Ha. repeat split; try done.
    constructor; [|done].
    apply retrieve_ok in Hr as (_ & _ & _ & all & _ & _ & _ & _ & -> & _).
    pose proof (slice_to_length all 3). lia.
Qed.

End QuestionLoop.

(** X9. When the loop over the questions returns, [contexts_list] and
    [answer_list] have one entry per question, so the four columns of the
    evaluation table have equal lengths when the ground truths have; and no
    entry of [contexts_list] holds more than three texts. *)
Theorem answer_questions_fills_parallel_lists {F : Type} `{!External F}
    (self : EvaluationWithRagas.RAG) (question_list : list string)
    (w : World F) contexts_list answer_list w' :
  EvaluationWithRagas.answer_questions self question_list w
    = (Ok (contexts_list, answer_list), w') →
  length contexts_list = length question_list ∧
  length answer_list = length question_list ∧
  Forall (λ contexts, (length contexts ≤ 3)%nat) contexts_list.
Proof.
  unfold EvaluationWithRagas.answer_questions. intros Hloop.
  apply answer_loop_ok in Hloop as (contexts & answers & [= -> ->] & Hc & Ha & Hbound).
  done.
Qed.

Lemma answer_questions_fills_parallel_lists_witness :
  ∃ contexts_list answer_list w',
    @EvaluationWithRagas.answer_questions Z Demo.online
      EvaluationWithRagas.default_attributes ["first?"; "second?"] Demo.loaded_world
      = (Ok (contexts_list, answer_list), w') ∧
    length contexts_list = 2%nat ∧ length answer_list = 2%nat.
Proof.
  eassert (@EvaluationWithRagas.answer_questions Z Demo.online
             EvaluationWithRagas.default_attributes ["first?"; "second?"]
             Demo.loaded_world = (Ok (_, _), _)) as Hrun by (vm_compute; reflexivity).
  destruct (@answer_questions_fills_parallel_lists Z Demo.online _ _ _ _ _ _ Hrun)
    as (Hc & Ha & _).
  eexists _, _, _. split; [exact Hrun|]. split; [exact Hc | exact Ha].
Defined.

(** ** The cell that loads the development guide *)

Lemma append_cons (c : ascii) (s t : string) :
  String c s +:+ t = String c (s +:+ t).
Proof. reflexivity. Qed.

Lemma append_assoc (s t u : string) : (s +:+ t) +:+ u = s +:+ (t +:+ u).
Proof.
  induction s as [|c s IH]; [done|]. by rewrite !append_cons, IH.
Qed.

Lemma length_append (s t : string) :
  String.length (s +:+ t) = (String.length s + String.length t)%nat.
Proof.
  induction s as [|c s IH]; [done|]. rewrite append_cons. simpl. by rewrite IH.
Qed.

Lemma startswith_prefix (s p : string) :
  startswith s p = true → ∃ t, s = p +:+ t.
Proof.
  revert s. induction p as [|c p IH]; intros s Hs.
  - by exists s.
  - destruct s as [|d s]; [done|]. simpl in Hs.
    destruct (Ascii.eqb_spec c d) as [->|]; [|done].
    destruct (IH s Hs) as [t ->]. by exists t.
Qed.

Lemma join_cons (sep x : string) (xs : list string) :
  xs ≠ [] → join sep (x :: xs) = x +:+ sep +:+ join sep xs.
Proof. by destruct xs. Qed.

Lemma split_go_nonempty (sep : string) (skip : nat) (piece s : string) :
  split_go sep skip piece s ≠ [].
Proof.
  revert skip piece. induction s as [|c rest IH]; intros skip piece; [done|].
  cbn [split_go]. destruct skip; [|apply IH].
  destruct (startswith (String c rest) sep); [done | apply IH].
Qed.

(** Passing over the rest of a separator. *)
Lemma split_go_skip (sep suffix piece t : string) :
  split_go sep (String.length suffix) piece (suffix +:+ t) = split_go sep 0 piece t.
Proof. induction suffix as [|c suffix IH]; [done|]. by rewrite append_cons. Qed.

(** Joining the pieces with the separator gives the string back. *)
Lemma join_split_go (sep : string) (n : nat) (s piece : string) :
  sep ≠ EmptyString → (String.length s ≤ n)%nat →
  join sep (split_go sep 0 piece s) = piece +:+ s.
Proof.
  intros Hsep. revert s piece.
  induction n as [|n IH]; intros [|c rest] piece Hlen; simpl in Hlen; try lia.
  - simpl. by rewrite append_empty.
  - simpl. by rewrite append_empty.
  - cbn [split_go]. destruct (startswith (String c rest) sep) eqn:Hstart.
    + apply startswith_prefix in Hstart as [t Ht].
      destruct sep as [|c' suffix]; [done|].
      rewrite append_cons in Ht. injection Ht as <- ->.
      cbn [String.length].
      replace (Datatypes.S (String.length suffix) - 1)%nat
        with (String.length suffix) by lia.
      rewrite split_go_skip.
      rewrite join_cons by apply split_go_nonempty.
      rewrite IH; [done|]. rewrite length_append in Hlen. lia.
    + rewrite IH by lia. by rewrite append_assoc.
Qed.

Lemma split_ok (s sep : string) (pieces : list string) :
  split s sep = Ok pieces → pieces ≠ [] ∧ join sep pieces = s.
Proof.
  unfold split. destruct (String.eqb_spec sep EmptyString) as [|Hsep]; [done|].
  intros [= <-]. split; [apply split_go_nonempty|].
  by rewrite (join_split_go sep (String.length s)).
Qed.

(** X10. Loading a file text stores at least one row, also for an empty
    file; the rows are numbered from 0, they are the rows the collection
    then holds under these keys (all its rows, when it was empty before),
    and their texts joined by ["# "] are the file text: nothing of the file
    is lost but the separators. *)
Theorem load_file_text_keeps_the_text {F : Type} `{!External F}
    (my_rag : EvaluationWithRagas.RAG) (file_text : string) (w : World F) u w' :
  let name := EvaluationWithRagas.collection_name my_rag in
  EvaluationWithRagas.load_file_text my_rag file_text w = (Ok u, w') →
  ∃ c c' data,
    store w !! name = Some c ∧
    store w' !! name = Some c' ∧
    List.filter (has_key (map row_id data)) (rows c') = data ∧
    (rows c = [] → rows c' = data) ∧
    data ≠ [] ∧
    map row_id data = map Z.of_nat (seq 0 (length data)) ∧
    join "# " (map row_text data) = file_text.
Proof.
  intros name Hcell. unfold EvaluationWithRagas.load_file_text in Hcell.
  apply bind_ok in Hcell as (text_lines & w0 & Hsplit & Hload).
  apply lift_ok in Hsplit as [Hsplit ->].
  apply split_ok in Hsplit as [Hsome Hjoin].
  apply load_ok in Hload as (c & data & Hc & Hdata & ->).
  destruct (loaded_rows_ids_texts _ _ _ Hdata) as [Hids Htexts].
  pose proof (numbered_keys_distinct _ _ Hids) as Hdistinct.
  eexists c, _, data. fold name in Hc |- *. split; [done|].
  split; [simpl; apply lookup_insert_eq|]. simpl.
  split; [by apply put_rows_new|].
  split; [intros Hempty; by rewrite put_rows_distinct, Hempty|].
  split; [intros ->; by destruct text_lines|].
  split; [|by rewrite Htexts].
  by rewrite Hids, <- Htexts, length_map.
Qed.

Lemma load_file_text_keeps_the_text_witness :
  ∃ w' c' data,
    @EvaluationWithRagas.load_file_text Z Demo.online
      EvaluationWithRagas.default_attributes "intro# Build" Demo.loaded_world
      = (Ok tt, w') ∧
    store w' !! "rag_collection" = Some c' ∧
    List.filter (has_key (map row_id data)) (rows c') = data ∧
    data ≠ [] ∧
    join "# " (map row_text data) = "intro# Build".
Proof.
  eassert (@EvaluationWithRagas.load_file_text Z Demo.online
             EvaluationWithRagas.default_attributes "intro# Build"
             Demo.loaded_world = (Ok tt, _)) as Hcell by (vm_compute; reflexivity).
  destruct (@load_file_text_keeps_the_text Z Demo.online _ _ _ _ _ Hcell)
    as (c & c' & data & _ & Hc' & Hnew & _ & Hsome & _ & Hjoin).
  eexists _, c', data. split; [exact Hcell|]. split; [exact Hc'|].
  split; [exact Hnew|]. split; [exact Hsome | exact Hjoin].
Defined.

(** ** [load_processed_files]: which files it reads *)

Lemma load_loop_reads_only_json {E : Type} (files1 files2 : RagWithUnstructured.Files E)
    (d : string) (names : list string) (elements : list E) (printed : list string) :
  (∀ n, n ∈ names → endswith n ".json" = true →
        @RagWithUnstructured.elements_from_json E files1 (path_join d n)
        = @RagWithUnstructured.elements_from_json E files2 (path_join d n)) →
  @RagWithUnstructured.load_loop E files1 d names elements printed
  = @RagWithUnstructured.load_loop E files2 d names elements printed.
Proof.
  revert elements printed.
  induction names as [|n rest IH]; intros elements printed Hagree; simpl; [done|].
  assert (∀ n', n' ∈ rest → endswith n' ".json" = true →
                @RagWithUnstructured.elements_from_json E files1 (path_join d n')
                = @RagWithUnstructured.elements_from_json E files2 (path_join d n'))
    as Hrest.
  { intros n' Hin. apply Hagree. by apply list_elem_of_further. }
  destruct (endswith n ".json") eqn:Hjson; [|by apply IH].
  rewrite <- (Hagree n (list_elem_of_here _ _) Hjson).
  destruct (RagWithUnstructured.elements_from_json (path_join d n)) as [more|[]];
    try done; by apply IH.
Qed.

(** X11. [load_processed_files] reads the files of the directory whose names end
    in [.json] and no other: two directories with the same listing and the
    same [.json] files give the same elements and the same printed lines,
    whatever their other files hold; and a directory without a [.json] name,
    an empty one included, gives no element and prints nothing. *)
Theorem load_processed_files_reads_only_json {E : Type}
    (files1 files2 : RagWithUnstructured.Files E) (d : string) :
  (@RagWithUnstructured.os_listdir E files1 d = @RagWithUnstructured.os_listdir E files2 d →
   (∀ n, endswith n ".json" = true →
         @RagWithUnstructured.elements_from_json E files1 (path_join d n)
         = @RagWithUnstructured.elements_from_json E files2 (path_join d n)) →
   @RagWithUnstructured.load_processed_files E files1 d
   = @RagWithUnstructured.load_processed_files E files2 d) ∧
  (∀ names,
     @RagWithUnstructured.os_listdir E files1 d = Ok names →
     Forall (λ n, endswith n ".json" = false) names →
     @RagWithUnstructured.load_processed_files E files1 d = (Ok [], [])).
Proof.
  split.
  - intros Hlisting Hjson. unfold RagWithUnstructured.load_processed_files.
    rewrite <- Hlisting.
    destruct (RagWithUnstructured.os_listdir d) as [names|e]; [|done].
    apply load_loop_reads_only_json. intros n _. apply Hjson.
  - intros names Hlisting Hnone. unfold RagWithUnstructured.load_processed_files.
    rewrite Hlisting. clear Hlisting.
    induction Hnone as [|n rest Hn _ IH]; simpl; [done|]. by rewrite Hn.
Qed.

Lemma load_processed_files_reads_only_json_witness :
  @RagWithUnstructured.elements_from_json Z Demo.results_dir "out/notes.txt"
    ≠ @RagWithUnstructured.elements_from_json Z Demo.results_dir_other_notes "out/notes.txt" ∧
  @RagWithUnstructured.load_processed_files Z Demo.results_dir "out"
    = @RagWithUnstructured.load_processed_files Z Demo.results_dir_other_notes "out".
Proof.
  split; [done|].
  destruct (@load_processed_files_reads_only_json Z Demo.results_dir
              Demo.results_dir_other_notes "out") as [Hsame _].
  apply Hsame; [reflexivity|].
  intros n Hjson. simpl.
  destruct (String.eqb_spec (path_join "out" n) "out/notes.txt") as [Hnotes|]; [|done].
  exfalso. unfold path_join in Hnotes.
  destruct (startswith n "/").
  - subst n. vm_compute in Hjson. discriminate Hjson.
  - vm_compute in Hnotes. injection Hnotes as ->.
    vm_compute in Hjson. discriminate Hjson.
Defined.

(** ** The cell that drops the collection of the Unstructured notebook *)

(** X12. When the cell returns, the server holds no collection
    ["my_rag_collection"] and every other collection is as before; the drop
    is sent exactly when the collection existed, so on a fresh server the
    cell makes the one [has_collection] call. *)
Theorem drop_if_exists_clears_the_name {F : Type} `{!External F} (w : World F) u w' :
  RagWithUnstructured.drop_if_exists w = (Ok u, w') →
  store w' = delete RagWithUnstructured.collection_name (store w) ∧
  log w' = log w ++ [(HasCollection RagWithUnstructured.collection_name, None)]
             ++ (if bool_decide (is_Some (store w !! RagWithUnstructured.collection_name))
                 then [(DropCollection RagWithUnstructured.collection_name, None)]
                 else []).
Proof.
  unfold RagWithUnstructured.drop_if_exists. intros Hcell.
  apply bind_ok in Hcell as (exists_already & w0 & Hhas & Hcell).
  apply has_collection_ok in Hhas as [-> ->].
  destruct (bool_decide _) eqn:Hexists.
  - apply drop_collection_ok in Hcell as ->. simpl. by rewrite <- app_assoc.
  - run_ok. split; [|done].
    apply bool_decide_eq_false in Hexists. symmetry. apply delete_id.
    by apply eq_None_not_Some.
Qed.

Lemma drop_if_exists_clears_the_name_witness :
  ∃ w',
    @RagWithUnstructured.drop_if_exists Z Demo.online Demo.loaded_world = (Ok tt, w') ∧
    store w' !! "my_rag_collection" = None ∧
    store w' !! "rag_collection" = store Demo.loaded_world !! "rag_collection".
Proof.
  eassert (@RagWithUnstructured.drop_if_exists Z Demo.online Demo.loaded_world
           = (Ok tt, _)) as Hcell by (vm_compute; reflexivity).
  destruct (@drop_if_exists_clears_the_name Z Demo.online _ _ _ Hcell) as [Hstore _].
  eexists. split; [exact Hcell|]. rewrite Hstore.
  split; [apply lookup_delete_eq | by apply lookup_delete_ne].
Defined.

(** ** [MilvusDocChatbot]: any version, and the whole chat *)

Section AnyVersion.
Context `{!ZillizPipeline.SearchService}.
Import ZillizPipeline.

(** Up to the first quote of a text that holds none before it. *)
Lemma split_at_first (q : ascii) (v rest : string) :
  (∀ before after, v ≠ before +:+ String q after) →
  split_at q (v +:+ String q rest) = Some (v, rest).
Proof.
  revert rest. induction v as [|d v IH]; intros rest Hfree.
  - simpl. by rewrite Ascii.eqb_refl.
  - rewrite append_cons. simpl.
    destruct (Ascii.eqb_spec q d) as [->|Hqd].
    + by destruct (Hfree EmptyString v).
    + rewrite IH; [done|]. intros before after ->.
      by apply (Hfree (String d before) after).
Qed.

Lemma split_at_version (rest : string) :
  split_at " " ("version == " +:+ rest) = Some ("version", "== " +:+ rest).
Proof. reflexivity. Qed.

Lemma strip_prefix_quote (rest : string) :
  strip_prefix ("== " +:+ dquote) ("== " +:+ dquote +:+ rest) = Some rest.
Proof. reflexivity. Qed.

(** The filter built for a version without a double quote is the equality
    filter on that version. *)
Lemma version_filter_parses (v : string) :
  (∀ before after, v ≠ before +:+ dquote +:+ after) →
  parse_equality ("version == " +:+ dquote +:+ v +:+ dquote) = Some ("version", v).
Proof.
  intros Hfree. unfold parse_equality.
  rewrite split_at_version, strip_prefix_quote.
  unfold dquote at 1. rewrite split_at_first; [done|].
  intros before after. exact (Hfree before after).
Qed.

Lemma run_at_most_top_k question top_k fields filter_expr frags :
  run question top_k fields filter_expr = Ok frags →
  (length frags ≤ Z.to_nat top_k)%nat.
Proof.
  unfold run. intros Hrun. apply rbind_ok in Hrun as (keep & _ & Hrun).
  apply comprehension_ok, Forall2_length in Hrun. rewrite <- Hrun, length_take. lia.
Qed.

End AnyVersion.

Lemma split_at_found (q : ascii) (before after : string) :
  ZillizPipeline.split_at q (before +:+ String q after) ≠ None.
Proof.
  induction before as [|d before IH].
  - simpl. by rewrite Ascii.eqb_refl.
  - rewrite append_cons. simpl. destruct (Ascii.eqb q d); [done|].
    by destruct (ZillizPipeline.split_at q (before +:+ String q after)) as [[]|].
Qed.

Lemma no_quote_from_split_at (v : string) :
  ZillizPipeline.split_at (Ascii.ascii_of_nat 34) v = None →
  ∀ before after, v ≠ before +:+ dquote +:+ after.
Proof.
  intros Hnone before after ->.
  exact (split_at_found (Ascii.ascii_of_nat 34) before after Hnone).
Qed.

(** For every version text without a double quote, not only ["2.2"] and
    ["2.3"], [MilvusDocChatbot.retrieve] returns at most two fragments, each
    the text of a chunk of the collection tagged with that version and
    showing that version. *)
Theorem chatbot_retrieve_any_version `{!ZillizPipeline.SearchService}
    (query milvus_version : string) :
  (∀ before after, milvus_version ≠ before +:+ dquote +:+ after) →
  ∃ frags,
    ZillizPipeline.retrieve query milvus_version = Ok frags ∧
    (length frags ≤ 2)%nat ∧
    ∀ frag, frag ∈ frags →
      dict_get frag "version" = Ok milvus_version ∧
      ∃ c, c ∈ ZillizPipeline.nearest query ∧
           ZillizPipeline.tag c "version" = Some milvus_version ∧
           dict_get frag "chunk_text" = Ok (ZillizPipeline.chunk_text c).
Proof.
  intros Hfree. unfold ZillizPipeline.retrieve.
  destruct (run_version_filter query 2 _ milvus_version
              (version_filter_parses milvus_version Hfree))
    as (frags & Hrun & Hfrags).
  exists frags. split; [exact Hrun|].
  split; [by apply run_at_most_top_k in Hrun|].
  intros frag Hfrag. destruct (Hfrags frag Hfrag) as (c & Hin & Htag & ->).
  split; [done|]. by exists c.
Qed.

Lemma chatbot_retrieve_any_version_witness :
  @ZillizPipeline.retrieve Demo.two_versions "Can user delete entities?" "2.3"
    = Ok [[("chunk_text", "delete by key or expression"); ("version", "2.3")];
          [("chunk_text", "prepare expression, 2.3"); ("version", "2.3")]] ∧
  @ZillizPipeline.retrieve Demo.two_versions "Can user delete entities?" "2.4-rc1"
    = Ok [].
Proof.
  destruct (@chatbot_retrieve_any_version Demo.two_versions
              "Can user delete entities?" "2.4-rc1"
              (no_quote_from_split_at "2.4-rc1" eq_refl))
    as (frags & Hretrieve & _).
  split; [reflexivity|].
  rewrite Hretrieve. vm_compute in Hretrieve. by injection Hretrieve as <-.
Defined.

(** A chat that returns has asked for exactly one completion, whose prompt
    is built from the fragments [retrieve] returns for the query and the
    version; for a version text without a double quote every fragment in
    that prompt shows that version.  The answer is the first choice. *)
Theorem chat_with_rag_uses_the_requested_version {F : Type} `{!External F}
    `{!ZillizPipeline.SearchService} (query milvus_version : string)
    (w : World F) text w' :
  (∀ before after, milvus_version ≠ before +:+ dquote +:+ after) →
  ZillizPipeline.chat_with_rag query milvus_version w = (Ok text, w') →
  ∃ frags,
    let request :=
      mkChatRequest "gpt-3.5-turbo" (Some 0)
        [mkMessage "user" (ZillizPipeline.answer_prompt query frags)] in
    ZillizPipeline.retrieve query milvus_version = Ok frags ∧
    (∀ frag, frag ∈ frags → dict_get frag "version" = Ok milvus_version) ∧
    log w' = log w ++ [(ChatCompletionsCreate request, None)] ∧
    index0 (chat_choices request) = Ok text.
Proof.
  intros Hfree Hchat.
  unfold ZillizPipeline.chat_with_rag, ZillizPipeline.generate_answer in Hchat.
  run_ok.
  match goal with Hc : chat_completions_create _ _ = _ |- _ =>
    apply chat_completions_create_ok in Hc as [-> ->] end.
  destruct (run_version_filter query 2 _ milvus_version
              (version_filter_parses milvus_version Hfree))
    as (frags & Hrun & Hfrags).
  match goal with Hr : ZillizPipeline.retrieve _ _ = Ok _ |- _ =>
    unfold ZillizPipeline.retrieve in Hr; rewrite Hrun in Hr; injection Hr as <- end.
  exists frags. split; [exact Hrun|]. split; [|done].
  intros frag Hfrag. by destruct (Hfrags frag Hfrag) as (c & _ & _ & ->).
Qed.

Lemma chat_with_rag_uses_the_requested_version_witness :
  ∃ w' request,
    @ZillizPipeline.chat_with_rag Demo.two_versions Z Demo.online
      "Can user delete entities?" "2.2" Demo.empty_world
      = (Ok "answer from gpt-3.5-turbo", w') ∧
    log w' = [(ChatCompletionsCreate request, None)].
Proof.
  eassert (@ZillizPipeline.chat_with_rag Demo.two_versions Z Demo.online
             "Can user delete entities?" "2.2" Demo.empty_world = (Ok _, _))
    as Hchat by (vm_compute; reflexivity).
  destruct (@chat_with_rag_uses_the_requested_version Z Demo.online Demo.two_versions
              _ _ _ _ _ (no_quote_from_split_at "2.2" eq_refl) Hchat)
    as (frags & _ & _ & Hlog & _).
  eexists _, _. split; [exact Hchat | exact Hlog].
Defined.

(** ** [RAG.retrieve]: how it fails *)

Lemma comprehension_raise {A B} (f : A → Result B) (xs : list A) (e : PyExc) :
  comprehension f xs = Raise e → ∃ x, x ∈ xs ∧ f x = Raise e.
Proof.
  induction xs as [|x rest IH]; simpl; [done|].
  destruct (f x) as [y|e'] eqn:Hx; simpl.
  - destruct (comprehension f rest) as [ys|e'] eqn:Hrest; simpl; [done|].
    intros [= ->]. destruct (IH eq_refl) as (x' & Hin & Hx').
    exists x'. split; [by apply list_elem_of_further | done].
  - intros [= ->]. exists x. split; [apply list_elem_of_here | done].
Qed.

Lemma dict_get_raise (d : list (string * string)) (k : string) (e : PyExc) :
  dict_get d k = Raise e → e = KeyError k.
Proof.
  induction d as [|[k' v] rest IH]; simpl; [by intros [= <-]|].
  by destruct (String.eqb k' k).
Qed.

(** X13. A retrieval that raises does so for one of these reasons: a call was
    rejected by its service; the embedding response held no embedding
    ([IndexError]); the server has no such collection; the search answered
    no hit list at all ([IndexError]); or a hit came without the [text]
    field ([KeyError]). *)
Theorem retrieve_failure_causes {F : Type} `{!External F}
    (self : EvaluationWithRagas.RAG) (question : string) (top_k : Z)
    (w : World F) e w' :
  let embedder := EvaluationWithRagas.embedding_model self in
  let name := EvaluationWithRagas.collection_name self in
  EvaluationWithRagas.retrieve self question top_k w = (Raise e, w') →
  (∃ call, last (log w') = Some (call, Some e)) ∨
  (embeddings_data question embedder = [] ∧
   e = IndexError "list index out of range") ∨
  (store w !! name = None ∧ e = MilvusException "collection not found") ∨
  ∃ v c,
    index0 (embeddings_data question embedder) = Ok v ∧
    store w !! name = Some c ∧
    ((search_hits c [v] top_k (Some "IP") ["text"] = [] ∧
      e = IndexError "list index out of range") ∨
     ∃ hits h,
       index0 (search_hits c [v] top_k (Some "IP") ["text"]) = Ok hits ∧
       h ∈ hits ∧ dict_get (hit_entity h) "text" = Raise e ∧ e = KeyError "text").
Proof.
  intros embedder name Hretrieve. unfold EvaluationWithRagas.retrieve in Hretrieve.
  apply bind_raise in Hretrieve as [Hemb | (v & w1 & Hemb & Hretrieve)].
  { apply _emb_text_raise in Hemb as [_ [Hcall | Hindex]]; [by left|].
    right. left. fold embedder in Hindex.
    destruct (embeddings_data question embedder); [|done].
    by injection Hindex as <-. }
  apply _emb_text_ok in Hemb as [Hv ->].
  apply bind_raise in Hretrieve as [Hsearch | (res & w2 & Hsearch & Hretrieve)].
  { unfold search in Hsearch. fold name in Hsearch.
    apply bind_raise in Hsearch as [Hext | (u & w2 & Hext & Hsearch)].
    - apply external_raise in Hext as [_ ->]. left. simpl. rewrite last_snoc. eauto.
    - apply external_ok in Hext as [_ ->].
      apply bind_raise in Hsearch as [Hread | (s & w3 & Hread & Hsearch)];
        [discriminate Hread|].
      apply read_store_ok in Hread as [-> ->]. simpl in Hsearch.
      destruct (store w !! name) eqn:Hc; [discriminate Hsearch|].
      injection Hsearch as <- _. right. right. by left. }
  apply search_ok in Hsearch as (c & Hc & -> & ->). simpl in Hc.
  right. right. right. exists v, c. split; [exact Hv|]. split; [exact Hc|].
  apply bind_raise in Hretrieve as [Hres | (hits & w3 & Hres & Hretrieve)].
  { apply lift_raise in Hres as [Hres _]. left.
    destruct (search_hits _ _ _ _ _); [|done]. by injection Hres as <-. }
  apply lift_ok in Hres as [Hhits ->].
  apply bind_raise in Hretrieve as [Htexts | (texts & w4 & _ & Hretrieve)];
    [|discriminate Hretrieve].
  apply lift_raise in Htexts as [Htexts _].
  apply comprehension_raise in Htexts as (h & Hin & Hget).
  right. exists hits, h. repeat split; try done.
  by apply dict_get_raise in Hget.
Qed.

Lemma retrieve_failure_causes_witness :
  ∃ w',
    @EvaluationWithRagas.retrieve Z Demo.no_text_field
      EvaluationWithRagas.default_attributes "which?" 2 Demo.loaded_world
      = (Raise (KeyError "text"), w') ∧
    ∃ hits h,
      index0 (@search_hits Z Demo.no_text_field
                (mkCollection 2 "IP" "Strong"
                   [mkRow 0 [3; 1] "one"; mkRow 1 [3; 1] "two"; mkRow 2 [5; 1] "three"])
                [[6; 1]] 2 (Some "IP") ["text"]) = Ok hits ∧
      h ∈ hits ∧ dict_get (hit_entity h) "text" = Raise (KeyError "text").
Proof.
  eassert (@EvaluationWithRagas.retrieve Z Demo.no_text_field
             EvaluationWithRagas.default_attributes "which?" 2 Demo.loaded_world
           = (Raise _, _)) as Hrun by (vm_compute; reflexivity).
  destruct (@retrieve_failure_causes Z Demo.no_text_field _ _ _ _ _ _ Hrun)
    as [[call Hcall] | [[_ He] | [[_ He] | (v & c & _ & _ & [[_ He] | Hhit])]]];
    try discriminate He.
  - vm_compute in Hcall. discriminate Hcall.
  - destruct Hhit as (hits & h & Hhits & Hin & Hget & _).
    eexists. split; [exact Hrun|]. exists hits, h. done.
Defined.

(** ** [generate_rag_response]: what reaches the prompt *)

(** X14. A response that returns has made three calls: the embedding of the
    question, one search of ["my_rag_collection"] with [limit] 3, whatever
    the question, and one completion.  The context of the prompt holds the
    text of every hit of that search, in the order of the hits, each as
    [Text: ...]; the distances do not reach the prompt. *)
Theorem generate_rag_response_context {F : Type} `{!External F}
    (question : string) (w : World F) text w' :
  RagWithUnstructured.generate_rag_response question w = (Ok text, w') →
  ∃ v c hits texts,
    let context := join nl (map (λ t, "Text: " +:+ t +:+ nl) texts) in
    let request :=
      mkChatRequest "gpt-4o-mini" None
        [mkMessage "system" RagWithUnstructured.system_prompt;
         mkMessage "user" (RagWithUnstructured.user_prompt context question)] in
    index0 (embeddings_data question "text-embedding-3-small") = Ok v ∧
    store w !! RagWithUnstructured.collection_name = Some c ∧
    index0 (search_hits c [v] 3 None ["text"]) = Ok hits ∧
    Forall2 (λ h t, dict_get (hit_entity h) "text" = Ok t) hits texts ∧
    log w' = log w ++
      [(EmbeddingsCreate question "text-embedding-3-small", None);
       (Search RagWithUnstructured.collection_name [v] 3 None ["text"], None);
       (ChatCompletionsCreate request, None)] ∧
    index0 (chat_choices request) = Ok text.
Proof.
  intros Hgen.
  apply generate_rag_response_ok in Hgen as (docs & w1 & Hr & Ha & ->).
  apply retrieve_documents_ok in Hr as (v & c & hits & Hv & Hc & Hhits & Hdocs & ->).
  exists v, c, hits, (map fst docs).
  assert (RagWithUnstructured.context_of docs
          = join nl (map (λ t, "Text: " +:+ t +:+ nl) (map fst docs))) as <-.
  { unfold RagWithUnstructured.context_of. by rewrite map_map. }
  simpl. repeat split; try done.
  - clear -Hdocs. induction Hdocs as [|h d hs ds [Ht _] _ IH]; simpl;
      constructor; done.
  - by rewrite <- app_assoc.
Qed.

Lemma generate_rag_response_context_witness :
  ∃ w' request,
    @RagWithUnstructured.generate_rag_response Z Demo.online "which?" Demo.loaded_world
      = (Ok "answer from gpt-4o-mini", w') ∧
    log w' =
      [(EmbeddingsCreate "which?" "text-embedding-3-small", None);
       (Search "my_rag_collection" [[6; 1]] 3 None ["text"], None);
       (ChatCompletionsCreate request, None)].
Proof.
  eassert (@RagWithUnstructured.generate_rag_response Z Demo.online "which?"
             Demo.loaded_world = (Ok _, _)) as Hgen by (vm_compute; reflexivity).
  destruct (@generate_rag_response_context Z Demo.online _ _ _ _ Hgen)
    as (v & c & hits & texts & Hv & _ & _ & _ & Hlog & _).
  vm_compute in Hv. injection Hv as <-.
  eexists _, _. split; [exact Hgen | exact Hlog].
Defined.

(** ** [MilvusDocChatbot.chat_with_rag]: one completion, or none *)

(** X15. Whatever the search pipeline answers, [chat_with_rag] leaves the
    collections alone and asks for at most one completion.  When the
    retrieval raises, the chat raises the same exception and no completion
    is asked for.  Otherwise there is exactly one request, to
    ["gpt-3.5-turbo"] at temperature 0, with a single user message built
    from the query and the fragments retrieved; a rejected request raises
    its exception, an accepted one gives the first choice, or [IndexError]
    when there is none. *)
Theorem chat_with_rag_asks_once {F : Type} `{!External F}
    `{!ZillizPipeline.SearchService} (query milvus_version : string)
    (w : World F) r w' :
  ZillizPipeline.chat_with_rag query milvus_version w = (r, w') →
  store w' = store w ∧
  match ZillizPipeline.retrieve query milvus_version with
  | Raise e => r = Raise e ∧ log w' = log w
  | Ok frags =>
      let request :=
        mkChatRequest "gpt-3.5-turbo" (Some 0)
          [mkMessage "user" (ZillizPipeline.answer_prompt query frags)] in
      ∃ verdict,
        log w' = log w ++ [(ChatCompletionsCreate request, verdict)] ∧
        r = match verdict with
            | Some e => Raise e
            | None => index0 (chat_choices request)
            end
  end.
Proof.
  unfold ZillizPipeline.chat_with_rag, ZillizPipeline.generate_answer,
    chat_completions_create, external, bind, lift, ret.
  destruct (ZillizPipeline.retrieve query milvus_version) as [frags|e].
  - cbn zeta.
    destruct (fault (store w) _) as [e|] eqn:Hverdict.
    + intros [= <- <-]. split; [done|]. by exists (Some e).
    + destruct (index0 (chat_choices _)) as [text|e] eqn:Hchoice;
        intros [= <- <-]; (split; [done|]); by exists None.
  - by intros [= <- <-].
Qed.

Lemma chat_with_rag_asks_once_witness :
  ∃ w' request,
    @ZillizPipeline.chat_with_rag Demo.two_versions Z Demo.no_choices
      "Can user delete entities?" "2.3" Demo.empty_world
      = (Raise (IndexError "list index out of range"), w') ∧
    log w' = [(ChatCompletionsCreate request, None)] ∧
    temperature request = Some 0.
Proof.
  eassert (@ZillizPipeline.chat_with_rag Demo.two_versions Z Demo.no_choices
             "Can user delete entities?" "2.3" Demo.empty_world = (_, _))
    as Hchat by (vm_compute; reflexivity).
  destruct (@chat_with_rag_asks_once Z Demo.no_choices Demo.two_versions
              _ _ _ _ _ Hchat) as [_ Hcalls].
  assert (@ZillizPipeline.retrieve Demo.two_versions "Can user delete entities?" "2.3"
          = Ok [[("chunk_text", "delete by key or expression"); ("version", "2.3")];
                [("chunk_text", "prepare expression, 2.3"); ("version", "2.3")]])
    as Hfrags by reflexivity.
  rewrite Hfrags in Hcalls. destruct Hcalls as (verdict & Hlog & _).
  assert (verdict = None) as ->.
  { vm_compute in Hlog. by injection Hlog as <-. }
  eexists _, _. split; [exact Hchat|]. split; [exact Hlog | reflexivity].
Defined.
